(** * llm_inference: device memory planning, generation and output reshaping

    A shallow embedding of [src/llm_inference.py]: the dataclass
    [InferenceArguments] and the three methods of [LLM] that decide
    something, [set_max_memory], [generate_from_model] and
    [reshape_model_outputs].

    Python integers are [Z], Python lists are [list], Python floats are
    IEEE 754 binary64 values ([spec_float] with [prec = 53] and
    [emax = 1024]), Python [dict]s are [gmap]s.  Code that can raise
    returns in [PyExc + _]; code that logs threads the stream of emitted
    records. *)

From Stdlib Require Import ZArith Lia QArith Qpower Qround Lqa.
From Stdlib Require Import Floats.SpecFloat.
From stdpp Require Import gmap strings list list_numbers pretty.

Open Scope Z_scope.

(** ** Exceptions *)

(** The exceptions the modelled code can raise, with their messages. *)
Inductive PyExc : Type :=
| ZeroDivisionError (msg : string)
| ValueError (msg : string)
| IndexError (msg : string)
| OverflowError (msg : string)
| BackendFailure (msg : string).

Definition Except (A : Type) : Type := (PyExc + A)%type.

(** ** Python built-ins used by the source *)

(** [len(l)] *)
Definition len {A} (l : list A) : Z := Z.of_nat (length l).

(** [a // b] on integers: floor division, [ZeroDivisionError] on [b = 0]. *)
Definition floordiv (a b : Z) : Except Z :=
  if b =? 0 then inl (ZeroDivisionError "integer division or modulo by zero")
  else inr (a `div` b).

(** Number of elements of [range(start, stop, step)] for [step ≠ 0]. *)
Definition range_length (start stop step : Z) : Z :=
  if 0 <? step then
    if start <? stop then (stop - start - 1) `div` step + 1 else 0
  else
    if stop <? start then (start - stop - 1) `div` (- step) + 1 else 0.

(** [range(start, stop, step)], which raises [ValueError] on a zero step. *)
Definition range (start stop step : Z) : Except (list Z) :=
  if step =? 0 then inl (ValueError "range() arg 3 must not be zero")
  else inr ((λ j, start + j * step) <$> seqZ 0 (range_length start stop step)).

(** A slice bound, as Python normalises it: a negative bound counts from
    the end, and the result is clamped to [0, len(l)]. *)
Definition slice_bound {A} (l : list A) (i : Z) : Z :=
  if i <? 0 then Z.max (i + len l) 0 else Z.min i (len l).

(** [l[lo:hi]] *)
Definition slice {A} (l : list A) (lo hi : Z) : list A :=
  let a := slice_bound l lo in
  let b := slice_bound l hi in
  take (Z.to_nat (b - a)) (drop (Z.to_nat a) l).

(** [l[i]], which raises [IndexError] out of range. *)
Definition index {A} (l : list A) (i : Z) : Except A :=
  let j := if i <? 0 then i + len l else i in
  if j <? 0 then inl (IndexError "list index out of range")
  else match l !! Z.to_nat j with
       | Some x => inr x
       | None => inl (IndexError "list index out of range")
       end.

(** ** Python floats: IEEE 754 binary64 *)

Module Float.

Definition prec : Z := 53.
Definition emax : Z := 1024.

Definition float : Type := spec_float.

(** [x * y], rounded to nearest even. *)
Definition mul (x y : float) : float := SFmul prec emax x y.

(** [x == y] and [x < y]; every comparison with NaN is false. *)
Definition eqb (x y : float) : bool := SFeqb x y.
Definition ltb (x y : float) : bool := SFltb x y.

(** The literals of the source and of the specification's examples, each
    the binary64 value nearest to the decimal. *)
Definition zero : float := S754_zero false.
Definition one : float := S754_finite false 4503599627370496 (-52).
Definition c0_6 : float := S754_finite false 5404319552844595 (-53).
Definition c0_8 : float := S754_finite false 7205759403792794 (-53).
Definition c0_9 : float := S754_finite false 8106479329266893 (-53).
Definition c0_02 : float := S754_finite false 5764607523034235 (-58).
Definition c1_5 : float := S754_finite false 6755399441055744 (-52).

(** [m * 2^e] is a binary64 value and no other one is nearer to
    [num / den]. *)
Definition nearest (num den : Z) (x : float) : bool :=
  match x with
  | S754_finite false m e =>
      bounded prec emax m e &&
      (2 * Z.abs (den * Z.pos m - num * 2 ^ (- e)) <? den)
  | _ => false
  end.

(** [bool(x)]: a float is false exactly when it is zero. *)
Definition truth (x : float) : bool := negb (eqb x zero).

(** The integer [(-1)^s * m * 2^e] rounded towards minus infinity. *)
Definition floor_finite (s : bool) (m : positive) (e : Z) : Z :=
  let sm := cond_Zopp s (Z.pos m) in
  if 0 <=? e then sm * 2 ^ e else sm `div` 2 ^ (- e).

(** [math.floor(x)] *)
Definition floor (x : float) : Except Z :=
  match x with
  | S754_zero _ => inr 0
  | S754_finite s m e => inr (floor_finite s m e)
  | S754_infinity _ =>
      inl (OverflowError "cannot convert float infinity to integer")
  | S754_nan => inl (ValueError "cannot convert float NaN to integer")
  end.

(** [a / (1024*1024*1024)] for an integer [a]: the quotient by [2^30],
    correctly rounded; Python raises when it exceeds the floats. *)
Definition truediv_GiB (a : Z) : Except float :=
  match binary_normalize prec emax a (-30) false with
  | S754_infinity _ =>
      inl (OverflowError "integer division result too large for a float")
  | x => inr x
  end.

End Float.

Abbreviation float := Float.float.

(** ** The dataclass [InferenceArguments] *)

Record InferenceArguments : Type := {
  model_name_or_path : string;
  load_in_8bit : bool;
  offload_state_dict : bool;
  offload_folder : option string;
  device_map : string;
  max_memory : float;
  seed : Z;
  use_cuda : bool;
  batch_size : Z;
  min_length : option Z;
  max_new_tokens : Z;
  length_penalty : float;
  no_early_stop : bool;
  num_return_sequences : Z;
  num_beams : Z;
  do_sample : bool;
  temperature : float;
  top_k : Z;
  top_p : float;
  verbose : bool;
  input_file : option string;
  output_dir : string;
  output_file : option string;
  source_key : string;
  prompt_prefix : option string;
  prompt_format : string;
  few_shot_n : Z;
  example_separator : string;
  n_refs : Z;
  ref_delimiter : string;
  examples : option string
}.

(** The field defaults; [model_name_or_path] has none and is required. *)
Definition defaults (name : string) : InferenceArguments := {|
  model_name_or_path := name;
  load_in_8bit := true;
  offload_state_dict := true;
  offload_folder := None;
  device_map := "auto";
  max_memory := Float.one;
  seed := 42;
  use_cuda := true;
  batch_size := 8;
  min_length := None;
  max_new_tokens := 100;
  length_penalty := Float.one;
  no_early_stop := false;
  num_return_sequences := 1;
  num_beams := 1;
  do_sample := true;
  temperature := Float.one;
  top_k := 0;
  top_p := Float.c0_9;
  verbose := false;
  input_file := None;
  output_dir := "data/outputs/";
  output_file := None;
  source_key := "complex";
  prompt_prefix := None;
  prompt_format := "prefix_initial";
  few_shot_n := 0;
  example_separator := "\n\n";
  n_refs := 1;
  ref_delimiter := "\t";
  examples := None
|}.

(** A keyword argument of the generated [__init__]. *)
Inductive Kwarg : Type :=
| kw_load_in_8bit (v : bool)
| kw_offload_state_dict (v : bool)
| kw_offload_folder (v : option string)
| kw_device_map (v : string)
| kw_max_memory (v : float)
| kw_seed (v : Z)
| kw_use_cuda (v : bool)
| kw_batch_size (v : Z)
| kw_min_length (v : option Z)
| kw_max_new_tokens (v : Z)
| kw_length_penalty (v : float)
| kw_no_early_stop (v : bool)
| kw_num_return_sequences (v : Z)
| kw_num_beams (v : Z)
| kw_do_sample (v : bool)
| kw_temperature (v : float)
| kw_top_k (v : Z)
| kw_top_p (v : float)
| kw_verbose (v : bool)
| kw_input_file (v : option string)
| kw_output_dir (v : string)
| kw_output_file (v : option string)
| kw_source_key (v : string)
| kw_prompt_prefix (v : option string)
| kw_prompt_format (v : string)
| kw_few_shot_n (v : Z)
| kw_example_separator (v : string)
| kw_n_refs (v : Z)
| kw_ref_delimiter (v : string)
| kw_examples (v : option string).

(** [self.<field> = v] *)
Definition assign (a : InferenceArguments) (kw : Kwarg) : InferenceArguments :=
  let 'Build_InferenceArguments f1 f2 f3 f4 f5 f6 f7 f8 f9 f10 f11 f12 f13 f14
        f15 f16 f17 f18 f19 f20 f21 f22 f23 f24 f25 f26 f27 f28 f29 f30 f31 := a in
  match kw with
  | kw_load_in_8bit v => Build_InferenceArguments f1 v f3 f4 f5 f6 f7 f8 f9 f10 f11 f12 f13 f14 f15 f16 f17 f18 f19 f20 f21 f22 f23 f24 f25 f26 f27 f28 f29 f30 f31
  | kw_offload_state_dict v => Build_InferenceArguments f1 f2 v f4 f5 f6 f7 f8 f9 f10 f11 f12 f13 f14 f15 f16 f17 f18 f19 f20 f21 f22 f23 f24 f25 f26 f27 f28 f29 f30 f31
  | kw_offload_folder v => Build_InferenceArguments f1 f2 f3 v f5 f6 f7 f8 f9 f10 f11 f12 f13 f14 f15 f16 f17 f18 f19 f20 f21 f22 f23 f24 f25 f26 f27 f28 f29 f30 f31
  | kw_device_map v => Build_InferenceArguments f1 f2 f3 f4 v f6 f7 f8 f9 f10 f11 f12 f13 f14 f15 f16 f17 f18 f19 f20 f21 f22 f23 f24 f25 f26 f27 f28 f29 f30 f31
  | kw_max_memory v => Build_InferenceArguments f1 f2 f3 f4 f5 v f7 f8 f9 f10 f11 f12 f13 f14 f15 f16 f17 f18 f19 f20 f21 f22 f23 f24 f25 f26 f27 f28 f29 f30 f31
  | kw_seed v => Build_InferenceArguments f1 f2 f3 f4 f5 f6 v f8 f9 f10 f11 f12 f13 f14 f15 f16 f17 f18 f19 f20 f21 f22 f23 f24 f25 f26 f27 f28 f29 f30 f31
  | kw_use_cuda v => Build_InferenceArguments f1 f2 f3 f4 f5 f6 f7 v f9 f10 f11 f12 f13 f14 f15 f16 f17 f18 f19 f20 f21 f22 f23 f24 f25 f26 f27 f28 f29 f30 f31
  | kw_batch_size v => Build_InferenceArguments f1 f2 f3 f4 f5 f6 f7 f8 v f10 f11 f12 f13 f14 f15 f16 f17 f18 f19 f20 f21 f22 f23 f24 f25 f26 f27 f28 f29 f30 f31
  | kw_min_length v => Build_InferenceArguments f1 f2 f3 f4 f5 f6 f7 f8 f9 v f11 f12 f13 f14 f15 f16 f17 f18 f19 f20 f21 f22 f23 f24 f25 f26 f27 f28 f29 f30 f31
  | kw_max_new_tokens v => Build_InferenceArguments f1 f2 f3 f4 f5 f6 f7 f8 f9 f10 v f12 f13 f14 f15 f16 f17 f18 f19 f20 f21 f22 f23 f24 f25 f26 f27 f28 f29 f30 f31
  | kw_length_penalty v => Build_InferenceArguments f1 f2 f3 f4 f5 f6 f7 f8 f9 f10 f11 v f13 f14 f15 f16 f17 f18 f19 f20 f21 f22 f23 f24 f25 f26 f27 f28 f29 f30 f31
  | kw_no_early_stop v => Build_InferenceArguments f1 f2 f3 f4 f5 f6 f7 f8 f9 f10 f11 f12 v f14 f15 f16 f17 f18 f19 f20 f21 f22 f23 f24 f25 f26 f27 f28 f29 f30 f31
  | kw_num_return_sequences v => Build_InferenceArguments f1 f2 f3 f4 f5 f6 f7 f8 f9 f10 f11 f12 f13 v f15 f16 f17 f18 f19 f20 f21 f22 f23 f24 f25 f26 f27 f28 f29 f30 f31
  | kw_num_beams v => Build_InferenceArguments f1 f2 f3 f4 f5 f6 f7 f8 f9 f10 f11 f12 f13 f14 v f16 f17 f18 f19 f20 f21 f22 f23 f24 f25 f26 f27 f28 f29 f30 f31
  | kw_do_sample v => Build_InferenceArguments f1 f2 f3 f4 f5 f6 f7 f8 f9 f10 f11 f12 f13 f14 f15 v f17 f18 f19 f20 f21 f22 f23 f24 f25 f26 f27 f28 f29 f30 f31
  | kw_temperature v => Build_InferenceArguments f1 f2 f3 f4 f5 f6 f7 f8 f9 f10 f11 f12 f13 f14 f15 f16 v f18 f19 f20 f21 f22 f23 f24 f25 f26 f27 f28 f29 f30 f31
  | kw_top_k v => Build_InferenceArguments f1 f2 f3 f4 f5 f6 f7 f8 f9 f10 f11 f12 f13 f14 f15 f16 f17 v f19 f20 f21 f22 f23 f24 f25 f26 f27 f28 f29 f30 f31
  | kw_top_p v => Build_InferenceArguments f1 f2 f3 f4 f5 f6 f7 f8 f9 f10 f11 f12 f13 f14 f15 f16 f17 f18 v f20 f21 f22 f23 f24 f25 f26 f27 f28 f29 f30 f31
  | kw_verbose v => Build_InferenceArguments f1 f2 f3 f4 f5 f6 f7 f8 f9 f10 f11 f12 f13 f14 f15 f16 f17 f18 f19 v f21 f22 f23 f24 f25 f26 f27 f28 f29 f30 f31
  | kw_input_file v => Build_InferenceArguments f1 f2 f3 f4 f5 f6 f7 f8 f9 f10 f11 f12 f13 f14 f15 f16 f17 f18 f19 f20 v f22 f23 f24 f25 f26 f27 f28 f29 f30 f31
  | kw_output_dir v => Build_InferenceArguments f1 f2 f3 f4 f5 f6 f7 f8 f9 f10 f11 f12 f13 f14 f15 f16 f17 f18 f19 f20 f21 v f23 f24 f25 f26 f27 f28 f29 f30 f31
  | kw_output_file v => Build_InferenceArguments f1 f2 f3 f4 f5 f6 f7 f8 f9 f10 f11 f12 f13 f14 f15 f16 f17 f18 f19 f20 f21 f22 v f24 f25 f26 f27 f28 f29 f30 f31
  | kw_source_key v => Build_InferenceArguments f1 f2 f3 f4 f5 f6 f7 f8 f9 f10 f11 f12 f13 f14 f15 f16 f17 f18 f19 f20 f21 f22 f23 v f25 f26 f27 f28 f29 f30 f31
  | kw_prompt_prefix v => Build_InferenceArguments f1 f2 f3 f4 f5 f6 f7 f8 f9 f10 f11 f12 f13 f14 f15 f16 f17 f18 f19 f20 f21 f22 f23 f24 v f26 f27 f28 f29 f30 f31
  | kw_prompt_format v => Build_InferenceArguments f1 f2 f3 f4 f5 f6 f7 f8 f9 f10 f11 f12 f13 f14 f15 f16 f17 f18 f19 f20 f21 f22 f23 f24 f25 v f27 f28 f29 f30 f31
  | kw_few_shot_n v => Build_InferenceArguments f1 f2 f3 f4 f5 f6 f7 f8 f9 f10 f11 f12 f13 f14 f15 f16 f17 f18 f19 f20 f21 f22 f23 f24 f25 f26 v f28 f29 f30 f31
  | kw_example_separator v => Build_InferenceArguments f1 f2 f3 f4 f5 f6 f7 f8 f9 f10 f11 f12 f13 f14 f15 f16 f17 f18 f19 f20 f21 f22 f23 f24 f25 f26 f27 v f29 f30 f31
  | kw_n_refs v => Build_InferenceArguments f1 f2 f3 f4 f5 f6 f7 f8 f9 f10 f11 f12 f13 f14 f15 f16 f17 f18 f19 f20 f21 f22 f23 f24 f25 f26 f27 f28 v f30 f31
  | kw_ref_delimiter v => Build_InferenceArguments f1 f2 f3 f4 f5 f6 f7 f8 f9 f10 f11 f12 f13 f14 f15 f16 f17 f18 f19 f20 f21 f22 f23 f24 f25 f26 f27 f28 f29 v f31
  | kw_examples v => Build_InferenceArguments f1 f2 f3 f4 f5 f6 f7 f8 f9 f10 f11 f12 f13 f14 f15 f16 f17 f18 f19 f20 f21 f22 f23 f24 f25 f26 f27 f28 f29 f30 v
  end.


(** ** The model backend and the events a run emits *)

(** A 2-D tensor of token ids, with its [shape]. *)
Record Tensor : Type := { shape : Z * Z; ids : list (list Z) }.

(** The keyword arguments of [self.model.generate]. *)
Record GenerateKwargs : Type := {
  g_input_ids : Tensor;
  g_max_new_tokens : Z;
  g_min_length : option Z;
  g_num_beams : Z;
  g_num_return_sequences : Z;
  g_early_stopping : bool;
  g_do_sample : bool;
  g_temperature : float;
  g_top_k : Z;
  g_top_p : float
}.

(** The capabilities of the tokenizer and the model that
    [generate_from_model] uses; any of them may fail. *)
Record Backend : Type := {
  tokenizer_call : list string → string → bool → Except Tensor;
  model_generate : GenerateKwargs → Except Tensor;
  tokenizer_batch_decode : Tensor → bool → Except (list string)
}.

(** Keys of the [max_memory] dict: a device index, or the string ['cpu']. *)
Inductive key : Type :=
| Device (i : Z)
| Host (name : string).

Global Instance key_eq_dec : EqDecision key.
Proof. solve_decision. Defined.

Global Instance key_countable : Countable key.
Proof.
  refine (inj_countable'
    (λ k, match k with Device i => inl i | Host s => inr s end)
    (λ x, match x with inl i => Device i | inr s => Host s end) _).
  by intros [].
Defined.

(** The records written by [logger.info]. *)
Inductive LogRecord : Type :=
| InferingMaxMemory
| SetMaximumMemory (max_memory : gmap key string)
| NumberOfReturnSequences (num_return_sequences input_batch_size : Z)
| GeneratedNewTokens (new_tokens cur_batch_size : Z).

(** What a run does to the outside: it logs and it calls the backend. *)
Inductive Event : Type :=
| LogInfo (r : LogRecord)
| CallTokenizer (inputs : list string) (return_tensors : string) (padding : bool)
| CallGenerate (kwargs : GenerateKwargs)
| CallBatchDecode (sequences : Tensor) (skip_special_tokens : bool).

(** ** The monad of effectful code *)

Module Py.

(** A computation threads the stream of events emitted so far and either
    raises or returns. *)
Definition M (A : Type) : Type := list Event → Except A * list Event.

Definition ret {A} (a : A) : M A := λ tr, (inr a, tr).

Definition raise {A} (e : PyExc) : M A := λ tr, (inl e, tr).

Definition bind {A B} (c : M A) (k : A → M B) : M B :=
  λ tr, match c tr with
        | (inr a, tr') => k a tr'
        | (inl e, tr') => (inl e, tr')
        end.

Definition emit (ev : Event) : M unit := λ tr, (inr tt, tr ++ [ev]).

Definition lift {A} (r : Except A) : M A := λ tr, (r, tr).

(** [[f x for x in xs]] *)
Fixpoint mapM {A B} (f : A → M B) (xs : list A) : M (list B) :=
  match xs with
  | [] => ret []
  | x :: xs' => bind (f x) (λ y, bind (mapM f xs') (λ ys, ret (y :: ys)))
  end.

(** What a computation returns or raises, and the stream it leaves, when
    started on the stream [tr]. *)
Definition result {A} (c : M A) (tr : list Event) : Except A := (c tr).1.
Definition events {A} (c : M A) (tr : list Event) : list Event := (c tr).2.

End Py.

Import Py.

Notation "x <- c1 ;; c2" := (Py.bind c1 (λ x, c2))
  (at level 100, c1 at next level, right associativity).
Notation "c1 ;;; c2" := (Py.bind c1 (λ _, c2))
  (at level 100, right associativity).

(** [logger.info(r)] *)
Definition logger_info (r : LogRecord) : M unit := emit (LogInfo r).

(** ** [LLM.set_max_memory] *)

(** What [torch.cuda] reports: the number of devices and the total memory
    of device 0 in bytes. *)
Record Cuda : Type := { device_count : Z; total_memory : Z }.

(** [f"{n}GiB"] *)
Definition GiB (n : Z) : string := pretty n +:+ "GiB".

(** [{k: v for ...}]: a later entry replaces an earlier one of the same key. *)
Definition dict_of (entries : list (key * string)) : gmap key string :=
  foldl (λ m kv, <[kv.1 := kv.2]> m) ∅ entries.

Definition set_max_memory (args : InferenceArguments) (cuda : Cuda)
  : M (option (gmap key string)) :=
  let n_gpus := device_count cuda in
  if Float.truth (max_memory args)
     && negb (Float.eqb (max_memory args) Float.one)
     && (1 <? n_gpus)
  then
    logger_info InferingMaxMemory ;;;
    t <- lift (Float.truediv_GiB (total_memory cuda)) ;;
    devices <- lift (range 0 n_gpus 1) ;;
    entries <- mapM (λ i,
        if 0 <? i
        then n <- lift (Float.floor (Float.mul t (max_memory args))) ;;
             ret (Device i, GiB n)
        else n <- lift (Float.floor
                   (Float.mul (Float.mul t (max_memory args)) Float.c0_6)) ;;
             ret (Device i, GiB n)) devices ;;
    let max_memory := <[Host "cpu" := "400GiB"]> (dict_of entries) in
    logger_info (SetMaximumMemory max_memory) ;;;
    ret (Some max_memory)
  else ret None.

(** ** [LLM.reshape_model_outputs] *)

Definition msg_outputs (got expected : Z) : string :=
  "Got " +:+ pretty got +:+ " outputs from model but expected "
    +:+ pretty expected +:+ "!".

Definition msg_return_sequences (got expected : Z) : string :=
  "Got " +:+ pretty got +:+ " return sequences but expected "
    +:+ pretty expected +:+ "!".

Definition reshape_model_outputs (outputs : list string) (input_batch_size : Z)
  : M (list (list string)) :=
  let num_return_sequences := len outputs in
  return_seqs_per_input <- lift (floordiv num_return_sequences input_batch_size) ;;
  (if 1 <? return_seqs_per_input
   then logger_info (NumberOfReturnSequences num_return_sequences input_batch_size)
   else ret tt) ;;;
  starts <- lift (range 0 num_return_sequences return_seqs_per_input) ;;
  let outputs' := (λ i, slice outputs i (i + return_seqs_per_input)) <$> starts in
  (if negb (len outputs' =? input_batch_size)
   then raise (ValueError (msg_outputs (len outputs') input_batch_size))
   else ret tt) ;;;
  first <- lift (index outputs' 0) ;;
  (if negb (len first =? return_seqs_per_input)
   then raise (ValueError (msg_return_sequences (len first) return_seqs_per_input))
   else ret tt) ;;;
  ret outputs'.

(** ** [LLM.generate_from_model] *)

(** The keyword arguments the source builds for [self.model.generate];
    [.cuda()] moves the tensor and leaves its contents alone. *)
Definition generate_kwargs (args : InferenceArguments) (input_ids : Tensor)
  : GenerateKwargs := {|
  g_input_ids := input_ids;
  g_max_new_tokens := max_new_tokens args;
  g_min_length := min_length args;
  g_num_beams := num_beams args;
  g_num_return_sequences := num_return_sequences args;
  g_early_stopping := negb (no_early_stop args);
  g_do_sample := do_sample args;
  g_temperature := temperature args;
  g_top_k := top_k args;
  g_top_p := top_p args
|}.

Definition generate_from_model (backend : Backend) (args : InferenceArguments)
    (inputs : list string) : M (list (list string)) :=
  emit (CallTokenizer inputs "pt" true) ;;;
  input_ids <- lift (tokenizer_call backend inputs "pt" true) ;;
  let kwargs := generate_kwargs args input_ids in
  emit (CallGenerate kwargs) ;;;
  model_outputs <- lift (model_generate backend kwargs) ;;
  let cur_batch_size := (shape input_ids).1 in
  let new_tokens :=
    ((shape model_outputs).2 - (shape input_ids).2) * (shape model_outputs).1 in
  logger_info (GeneratedNewTokens new_tokens cur_batch_size) ;;;
  emit (CallBatchDecode model_outputs true) ;;;
  model_outputs' <- lift (tokenizer_batch_decode backend model_outputs true) ;;
  reshape_model_outputs model_outputs' cur_batch_size.

(** ** Definitions used to state and prove the properties *)

(** The grouping the comprehension builds when the chunk width [k] is
    positive. *)
Definition groups_of (outputs : list string) (k : Z) : list (list string) :=
  (λ j : nat, take (Z.to_nat k) (drop (j * Z.to_nat k) outputs))
    <$> seq 0 (Z.to_nat ((len outputs + k - 1) `div` k)).

(** The stream after the optional [logger.info] of the source. *)
Definition reshape_events (outputs : list string) (B : Z) (tr : list Event)
  : list Event :=
  if 1 <? len outputs `div` B
  then tr ++ [LogInfo (NumberOfReturnSequences (len outputs) B)]
  else tr.

(** The validation failures of [reshape_model_outputs]: the two
    [ValueError]s that report a count next to the expected one. *)
Definition ReshapeError (e : PyExc) : Prop :=
  ∃ got expected : Z,
    e = ValueError (msg_outputs got expected) ∨
    e = ValueError (msg_return_sequences got expected).

(** What the specification asks of each call to the backend. *)
Definition call_ok (args : InferenceArguments) (ev : Event) : Prop :=
  match ev with
  | CallGenerate kwargs => g_early_stopping kwargs = negb (no_early_stop args)
  | CallBatchDecode _ skip_special_tokens => skip_special_tokens = true
  | _ => True
  end.

(** A backend stub: three prompts in, two return sequences each, six
    decoded strings in a fixed order. *)
Definition stub_input_ids : Tensor := {| shape := (3, 1); ids := [[7]; [8]; [9]] |}.
Definition stub_outputs : Tensor :=
  {| shape := (6, 2); ids := [[7; 1]; [7; 2]; [8; 1]; [8; 2]; [9; 1]; [9; 2]] |}.
Definition stub_backend : Backend := {|
  tokenizer_call _ _ _ := inr stub_input_ids;
  model_generate _ := inr stub_outputs;
  tokenizer_batch_decode _ _ := inr ["a1"; "a2"; "b1"; "b2"; "c1"; "c2"]
|}.
Definition stub_args : InferenceArguments :=
  foldl assign (defaults "stub") [kw_num_return_sequences 2; kw_no_early_stop true].

(** The first exception of a list of results, or all the values. *)
Fixpoint collect {A} (rs : list (Except A)) : Except (list A) :=
  match rs with
  | [] => inr []
  | inl e :: _ => inl e
  | inr a :: rs' =>
      match collect rs' with inl e => inl e | inr xs => inr (a :: xs) end
  end.

(** One entry of the dict comprehension. *)
Definition device_entry (t f : float) (i : Z) : Except (key * string) :=
  match
    Float.floor (if 0 <? i then Float.mul t f
                 else Float.mul (Float.mul t f) Float.c0_6)
  with
  | inl e => inl e
  | inr n => inr (Device i, GiB n)
  end.

(** Whether the planner plans at all. *)
Definition plans (args : InferenceArguments) (cuda : Cuda) : bool :=
  Float.truth (max_memory args)
  && negb (Float.eqb (max_memory args) Float.one)
  && (1 <? device_count cuda).

(** What the planner returns or raises, as a function of its inputs. *)
Definition plan_result (args : InferenceArguments) (cuda : Cuda)
  : Except (option (gmap key string)) :=
  if plans args cuda then
    match Float.truediv_GiB (total_memory cuda) with
    | inl e => inl e
    | inr t =>
        match range 0 (device_count cuda) 1 with
        | inl e => inl e
        | inr devices =>
            match collect (device_entry t (max_memory args) <$> devices) with
            | inl e => inl e
            | inr entries =>
                inr (Some (<[Host "cpu" := "400GiB"]> (dict_of entries)))
            end
        end
    end
  else inr None.

(** What the planner logs. *)
Definition plan_log (args : InferenceArguments) (cuda : Cuda) : list Event :=
  if plans args cuda then
    LogInfo InferingMaxMemory ::
    match plan_result args cuda with
    | inr (Some m) => [LogInfo (SetMaximumMemory m)]
    | _ => []
    end
  else [].

(** The budget map the planner builds from the two floors. *)
Definition budget_map (n a b : Z) : gmap key string :=
  <[Host "cpu" := "400GiB"]>
    (dict_of ((λ i, (Device i, GiB (if 0 <? i then a else b)))
                <$> ((λ j, 0 + j * 1) <$> seqZ 0 (range_length 0 n 1)))).

(** The configuration and the devices of the specification's example:
    memory fraction 0.8, two devices of 40 GiB. *)
Definition args_0_8 : InferenceArguments :=
  foldl assign (defaults "model") [kw_max_memory Float.c0_8].
Definition cuda_2x40 : Cuda :=
  {| device_count := 2; total_memory := 40 * 1024 * 1024 * 1024 |}.
Definition forty : float := S754_finite false 5629499534213120 (-47).

(** The rational [m * 2^e]. *)
Definition value (m e : Z) : Q := (inject_Z m * 2 ^ e)%Q.

(** A configuration with a small memory fraction, 0.02. *)
Definition args_0_02 : InferenceArguments :=
  foldl assign (defaults "model") [kw_max_memory Float.c0_02].

(** The invariant the specification gives for a budget map: the budget of
    device 0 is strictly less than the budget of every device [1 .. n-1]. *)
Definition device0_strictly_less (m : gmap key string) (n : Z) : Prop :=
  ∀ i a b, 1 ≤ i < n →
    m !! Device 0 = Some (GiB b) → m !! Device i = Some (GiB a) → b < a.

(** ** Fields no method reads *)

(** The keyword arguments whose fields neither [set_max_memory] nor
    [generate_from_model] nor [__init__] reads. *)
Definition unread (kw : Kwarg) : bool :=
  match kw with
  | kw_seed _ | kw_use_cuda _ | kw_batch_size _ | kw_length_penalty _
  | kw_verbose _ | kw_input_file _ | kw_output_dir _ | kw_output_file _
  | kw_source_key _ | kw_prompt_prefix _ | kw_prompt_format _
  | kw_few_shot_n _ | kw_example_separator _ | kw_n_refs _
  | kw_ref_delimiter _ | kw_examples _ => true
  | _ => false
  end.


(** ** [LLM.__init__] and the script entry point *)

(** [torch.float16], the only dtype the source names. *)
Inductive Dtype : Type := float16.

(** The arguments of [AutoModelForCausalLM.from_pretrained]. *)
Record FromPretrainedKwargs : Type := {
  p_pretrained_model_name_or_path : string;
  p_device_map : string;
  p_load_in_8bit : bool;
  p_torch_dtype : Dtype;
  p_max_memory : option (gmap key string);
  p_offload_state_dict : bool;
  p_offload_folder : option string
}.

(** A loaded model and a loaded tokenizer, by what the source asks of
    them. *)
Record Model : Type := {
  generate : GenerateKwargs → Except Tensor;
  get_memory_footprint : Z
}.

Record Tokenizer : Type := {
  encode_batch : list string → string → bool → Except Tensor;
  batch_decode : Tensor → bool → Except (list string)
}.

(** The two loaders of [transformers]; either may fail. *)
Record Transformers : Type := {
  AutoModelForCausalLM_from_pretrained : FromPretrainedKwargs → Except Model;
  AutoTokenizer_from_pretrained : string → string → Except Tokenizer
}.

(** An [LLM] object: [self.args], [self.model], [self.tokenizer]. *)
Record LLM : Type := {
  llm_args : InferenceArguments;
  llm_model : Model;
  llm_tokenizer : Tokenizer
}.

(** What [generate_from_model] uses of [self]. *)
Definition backend_of (self : LLM) : Backend := {|
  tokenizer_call := encode_batch (llm_tokenizer self);
  model_generate := generate (llm_model self);
  tokenizer_batch_decode := batch_decode (llm_tokenizer self)
|}.

(** What loading and the script do to the outside, next to the events of
    the methods they call. *)
Inductive SysEvent : Type :=
| Method (ev : Event)
| CallModelFromPretrained (kwargs : FromPretrainedKwargs)
| LogLoadedModel (name : string)
| LogModelFootprint (bytes : Z)
| CallTokenizerFromPretrained (name padding_side : string)
| Print (value : list (list string)).

Module Sys.

Definition M (A : Type) : Type := list SysEvent → Except A * list SysEvent.

Definition ret {A} (a : A) : M A := λ tr, (inr a, tr).

Definition bind {A B} (c : M A) (k : A → M B) : M B :=
  λ tr, match c tr with
        | (inr a, tr') => k a tr'
        | (inl e, tr') => (inl e, tr')
        end.

Definition emit (ev : SysEvent) : M unit := λ tr, (inr tt, tr ++ [ev]).

Definition lift {A} (r : Except A) : M A := λ tr, (r, tr).

(** A call of a method: the method starts on an empty stream of its own,
    and what it emits is appended to the caller's stream. *)
Definition method {A} (c : Py.M A) : M A :=
  λ tr, let '(r, evs) := c [] in (r, tr ++ (Method <$> evs)).

Definition result {A} (c : M A) (tr : list SysEvent) : Except A := (c tr).1.
Definition events {A} (c : M A) (tr : list SysEvent) : list SysEvent :=
  (c tr).2.

End Sys.

Notation "x <~ c1 ;; c2" := (Sys.bind c1 (λ x, c2))
  (at level 100, c1 at next level, right associativity).
Notation "c1 ;;~ c2" := (Sys.bind c1 (λ _, c2))
  (at level 100, right associativity).

(** The arguments [__init__] builds for the model loader, given what
    [self.set_max_memory()] returned. *)
Definition from_pretrained_kwargs (args : InferenceArguments)
    (plan : option (gmap key string)) : FromPretrainedKwargs := {|
  p_pretrained_model_name_or_path := model_name_or_path args;
  p_device_map := device_map args;
  p_load_in_8bit := load_in_8bit args;
  p_torch_dtype := float16;
  p_max_memory := plan;
  p_offload_state_dict := offload_state_dict args;
  p_offload_folder := offload_folder args
|}.

(** [LLM(args)].  The two readings of the clock only feed the elapsed time
    of the first log record and are left out; the footprint is logged in
    bytes, where the source prints it divided by [2^30]. *)
Definition LLM_init (hub : Transformers) (cuda : Cuda)
    (args : InferenceArguments) : Sys.M LLM :=
  plan <~ Sys.method (set_max_memory args cuda) ;;
  let kwargs := from_pretrained_kwargs args plan in
  Sys.emit (CallModelFromPretrained kwargs) ;;~
  model <~ Sys.lift (AutoModelForCausalLM_from_pretrained hub kwargs) ;;
  Sys.emit (LogLoadedModel (model_name_or_path args)) ;;~
  Sys.emit (LogModelFootprint (get_memory_footprint model)) ;;~
  Sys.emit (CallTokenizerFromPretrained (model_name_or_path args) "left") ;;~
  tokenizer <~ Sys.lift
    (AutoTokenizer_from_pretrained hub (model_name_or_path args) "left") ;;
  Sys.ret {| llm_args := args; llm_model := model; llm_tokenizer := tokenizer |}.

(** [self.generate_from_model(inputs)] *)
Definition LLM_generate_from_model (self : LLM) (inputs : list string)
  : Sys.M (list (list string)) :=
  Sys.method (generate_from_model (backend_of self) (llm_args self) inputs).

(** The body of [if __name__ == "__main__"], from the parsed arguments
    on. *)
Definition main (hub : Transformers) (cuda : Cuda) (args : InferenceArguments)
  : Sys.M unit :=
  llm <~ LLM_init hub cuda args ;;
  value <~ LLM_generate_from_model llm ["This is an awesome prompt :)"] ;;
  Sys.emit (Print value).

(** A loader stub for the backend stub, and two devices of 40 GiB. *)
Definition stub_model : Model :=
  {| generate := model_generate stub_backend; get_memory_footprint := 2 ^ 30 |}.
Definition stub_tokenizer : Tokenizer :=
  {| encode_batch := tokenizer_call stub_backend;
     batch_decode := tokenizer_batch_decode stub_backend |}.
Definition stub_hub : Transformers := {|
  AutoModelForCausalLM_from_pretrained _ := inr stub_model;
  AutoTokenizer_from_pretrained _ _ := inr stub_tokenizer
|}.

(** A tokenizer stub that gives every prompt one row and decodes to two
    strings, behind the same loader. *)
Definition echo_tokenizer : Tokenizer := {|
  encode_batch inputs _ _ :=
    inr {| shape := (len inputs, 1); ids := (λ _, [0]) <$> inputs |};
  batch_decode _ _ := inr ["first"; "second"]
|}.
Definition echo_hub : Transformers := {|
  AutoModelForCausalLM_from_pretrained _ := inr stub_model;
  AutoTokenizer_from_pretrained _ _ := inr echo_tokenizer
|}.

(** What [__init__] emits and what it returns or raises, as functions of
    its inputs. *)
Definition init_events (hub : Transformers) (cuda : Cuda)
    (args : InferenceArguments) : list SysEvent :=
  (Method <$> plan_log args cuda) ++
  match plan_result args cuda with
  | inl _ => []
  | inr plan =>
      CallModelFromPretrained (from_pretrained_kwargs args plan) ::
      match AutoModelForCausalLM_from_pretrained hub
              (from_pretrained_kwargs args plan) with
      | inl _ => []
      | inr model =>
          [LogLoadedModel (model_name_or_path args);
           LogModelFootprint (get_memory_footprint model);
           CallTokenizerFromPretrained (model_name_or_path args) "left"]
      end
  end.

Definition init_result (hub : Transformers) (cuda : Cuda)
    (args : InferenceArguments) : Except LLM :=
  match plan_result args cuda with
  | inl e => inl e
  | inr plan =>
      match AutoModelForCausalLM_from_pretrained hub
              (from_pretrained_kwargs args plan) with
      | inl e => inl e
      | inr model =>
          match AutoTokenizer_from_pretrained hub
                  (model_name_or_path args) "left" with
          | inl e => inl e
          | inr tokenizer =>
              inr {| llm_args := args; llm_model := model;
                     llm_tokenizer := tokenizer |}
          end
      end
  end.

(** * Properties *)

(** ** The literals are the binary64 values Python reads *)

Lemma literals_nearest :
  Float.nearest 1 1 Float.one = true ∧
  Float.nearest 3 5 Float.c0_6 = true ∧
  Float.nearest 4 5 Float.c0_8 = true ∧
  Float.nearest 9 10 Float.c0_9 = true ∧
  Float.nearest 1 50 Float.c0_02 = true ∧
  Float.nearest 3 2 Float.c1_5 = true.
Proof. repeat split; vm_compute; reflexivity. Qed.

(** ** Slices and ranges *)

Section Lists.

Context {A : Type}.
Implicit Types l : list A.

Lemma len_nonneg l : 0 ≤ len l.
Proof. unfold len. lia. Qed.

(** A slice that starts at a non-negative index and has a non-negative
    width is [take] after [drop]. *)
Lemma slice_take_drop l (lo k : Z) :
  0 ≤ lo → 0 ≤ k →
  slice l lo (lo + k) = take (Z.to_nat k) (drop (Z.to_nat lo) l).
Proof.
  intros Hlo Hk. unfold slice, slice_bound, len.
  destruct (Z.ltb_spec lo 0) as [?|_]; [lia|].
  destruct (Z.ltb_spec (lo + k) 0) as [?|_]; [lia|].
  destruct (Z.le_gt_cases (Z.of_nat (length l)) lo) as [Hge|Hlt].
  - rewrite !Z.min_r by lia.
    rewrite !drop_ge by lia. by rewrite !take_nil.
  - rewrite (Z.min_l lo) by lia.
    destruct (Z.le_gt_cases (lo + k) (Z.of_nat (length l))) as [Hin|Hout].
    + rewrite Z.min_l by lia. f_equal. lia.
    + rewrite Z.min_r by lia.
      rewrite !take_ge; [done | rewrite length_drop; lia..].
Qed.

(** Consecutive chunks of width [k] glue back to a prefix. *)
Lemma concat_chunks l (k s n : nat) :
  concat ((λ j, take k (drop (j * k) l)) <$> seq s n)
  = take (n * k) (drop (s * k) l).
Proof.
  revert s. induction n as [|n IH]; intros s; simpl.
  - by rewrite take_0.
  - rewrite IH. rewrite <- (take_take_drop (drop (s * k) l) k (n * k)).
    rewrite drop_drop. do 3 f_equal. lia.
Qed.

End Lists.

Lemma seqZ_0_fmap (n : Z) : seqZ 0 n = Z.of_nat <$> seq 0 (Z.to_nat n).
Proof.
  unfold seqZ. apply list_fmap_ext. intros _ i _. lia.
Qed.

(** The number of chunk starts: the ceiling of [m / k]. *)
Lemma range_length_pos (m k : Z) :
  0 < k → 0 ≤ m → range_length 0 m k = (m + k - 1) `div` k.
Proof.
  intros Hk Hm. unfold range_length.
  destruct (Z.ltb_spec 0 k) as [_|?]; [|lia].
  destruct (Z.ltb_spec 0 m) as [Hpos|Hz].
  - replace (m + k - 1) with (m - 0 - 1 + 1 * k) by lia.
    rewrite Z.div_add by lia. lia.
  - assert (m = 0) as -> by lia. simpl.
    symmetry. apply Z.div_small. lia.
Qed.

Lemma range_length_neg (m k : Z) : k < 0 → 0 ≤ m → range_length 0 m k = 0.
Proof.
  intros Hk Hm. unfold range_length.
  destruct (Z.ltb_spec 0 k) as [?|_]; [lia|].
  destruct (Z.ltb_spec m 0) as [?|_]; [lia|done].
Qed.

(** The list comprehension of [reshape_model_outputs], for a positive
    chunk width. *)
Lemma chunks_take_drop {A} (l : list A) (k n : Z) :
  0 < k →
  (λ i, slice l i (i + k)) <$> ((λ j, 0 + j * k) <$> seqZ 0 n)
  = (λ j : nat, take (Z.to_nat k) (drop (j * Z.to_nat k) l))
      <$> seq 0 (Z.to_nat n).
Proof.
  intros Hk. rewrite seqZ_0_fmap, <- !list_fmap_compose.
  apply list_fmap_ext. intros _ j _. simpl.
  rewrite slice_take_drop by lia. do 2 f_equal. lia.
Qed.

(** ** [reshape_model_outputs], step by step *)

Ltac py_simpl :=
  unfold result, events, logger_info, Py.bind, Py.lift, Py.ret, Py.raise,
    Py.emit in *; simpl in *.

Lemma reshape_zero_batch outputs tr :
  reshape_model_outputs outputs 0 tr
  = (inl (ZeroDivisionError "integer division or modulo by zero"), tr).
Proof. reflexivity. Qed.

Lemma reshape_zero_step outputs B tr :
  B ≠ 0 → len outputs `div` B = 0 →
  reshape_model_outputs outputs B tr
  = (inl (ValueError "range() arg 3 must not be zero"), tr).
Proof.
  intros HB Hk. unfold reshape_model_outputs, floordiv.
  destruct (Z.eqb_spec B 0) as [?|_]; [done|].
  py_simpl. rewrite Hk. reflexivity.
Qed.

Lemma reshape_neg_step outputs B tr :
  B ≠ 0 → len outputs `div` B < 0 →
  reshape_model_outputs outputs B tr
  = (inl (ValueError (msg_outputs 0 B)), tr).
Proof.
  intros HB Hk. unfold reshape_model_outputs, floordiv, range.
  destruct (Z.eqb_spec B 0) as [?|_]; [done|].
  py_simpl.
  destruct (Z.ltb_spec 1 (len outputs `div` B)) as [?|_]; [lia|].
  destruct (Z.eqb_spec (len outputs `div` B) 0) as [?|_]; [lia|].
  rewrite range_length_neg by (auto using len_nonneg). simpl.
  destruct B; [done|reflexivity..].
Qed.

Lemma groups_of_length outputs k :
  0 < k → len (groups_of outputs k) = (len outputs + k - 1) `div` k.
Proof.
  intros Hk. unfold groups_of, len.
  rewrite length_fmap, length_seq.
  apply Z2Nat.id, Z.div_pos; lia.
Qed.

Lemma reshape_pos_step outputs B tr :
  B ≠ 0 → 0 < len outputs `div` B →
  reshape_model_outputs outputs B tr
  = let k := len outputs `div` B in
    let groups := groups_of outputs k in
    (if len groups =? B
     then match index groups 0 with
          | inr first =>
              if len first =? k then inr groups
              else inl (ValueError (msg_return_sequences (len first) k))
          | inl e => inl e
          end
     else inl (ValueError (msg_outputs (len groups) B)),
     reshape_events outputs B tr).
Proof.
  intros HB Hk. unfold reshape_model_outputs, floordiv, range, reshape_events.
  destruct (Z.eqb_spec B 0) as [?|_]; [done|].
  py_simpl.
  destruct (Z.eqb_spec (len outputs `div` B) 0) as [?|_]; [lia|].
  rewrite range_length_pos by (auto using len_nonneg).
  rewrite chunks_take_drop by done. fold (groups_of outputs (len outputs `div` B)).
  set (groups := groups_of _ _).
  destruct (1 <? len outputs `div` B); simpl;
    destruct (len groups =? B); simpl; try reflexivity;
    destruct (index groups 0) as [e|first]; simpl; try reflexivity;
    destruct (len first =? len outputs `div` B); reflexivity.
Qed.

(** When the length is a multiple of the width, every group is full and
    the groups glue back to the flat list. *)
Lemma groups_of_exact (outputs : list string) (k n : Z) :
  0 < k → len outputs = n * k →
  len (groups_of outputs k) = n ∧
  Forall (λ g, len g = k) (groups_of outputs k) ∧
  concat (groups_of outputs k) = outputs ∧
  (∀ i j : nat, Z.of_nat i < n → Z.of_nat j < k →
     groups_of outputs k !! i ≫= (λ g, g !! j)
     = outputs !! (i * Z.to_nat k + j)%nat).
Proof.
  intros Hk HM.
  assert (0 ≤ n) as Hn by (pose proof (len_nonneg outputs); nia).
  assert ((len outputs + k - 1) `div` k = n) as Hcount.
  { rewrite HM. replace (n * k + k - 1) with (k - 1 + n * k) by lia.
    rewrite Z.div_add by lia. rewrite Z.div_small by lia. lia. }
  split; [by rewrite groups_of_length|]. split; [|split].
  - unfold groups_of. rewrite Hcount. apply Forall_fmap, Forall_forall.
    intros j Hj. apply elem_of_seq in Hj. simpl. unfold len in *.
    rewrite length_take, length_drop. nia.
  - unfold groups_of. rewrite Hcount, concat_chunks. simpl. rewrite drop_0.
    apply take_ge. unfold len in HM. nia.
  - intros i j Hi Hj. unfold groups_of. rewrite Hcount.
    rewrite list_lookup_fmap, lookup_seq_lt by lia. simpl.
    rewrite lookup_take_lt by lia. by rewrite lookup_drop.
Qed.

Lemma range_error_not_ReshapeError :
  ¬ ReshapeError (ValueError "range() arg 3 must not be zero").
Proof. intros (got & expected & [H|H]); discriminate H. Qed.

(** A length that is not a multiple of the batch size, but at least the
    batch size, is caught by the count check. *)
Lemma reshape_not_divisible_ge (outputs : list string) (B : Z) tr :
  1 ≤ B → B ≤ len outputs → len outputs `mod` B ≠ 0 →
  ∃ got, B < got ∧
    result (reshape_model_outputs outputs B) tr
    = inl (ValueError (msg_outputs got B)).
Proof.
  intros HB HM Hmod.
  pose proof (Z.div_mod (len outputs) B ltac:(lia)) as Hdm.
  pose proof (Z.mod_pos_bound (len outputs) B ltac:(lia)) as Hr.
  set (k := len outputs `div` B) in *. set (r := len outputs `mod` B) in *.
  assert (0 < k) as Hk by nia.
  unfold result. rewrite reshape_pos_step by (fold k; lia). fold k. simpl.
  rewrite groups_of_length by done.
  assert (B + 1 ≤ (len outputs + k - 1) `div` k) as Hgt.
  { apply Z.div_le_lower_bound; nia. }
  destruct (Z.eqb_spec ((len outputs + k - 1) `div` k) B) as [?|_]; [lia|].
  exists ((len outputs + k - 1) `div` k). split; [lia | reflexivity].
Qed.

(** *** Claims about [reshape_model_outputs] *)

(** C1: for a flat list whose length [M] is a multiple of the batch size
    [B >= 1] with [M / B = k >= 1], [reshape_model_outputs] returns [B]
    groups, each of length [k], whose concatenation in order is the flat
    list. *)
Theorem reshape_divisible_roundtrip
    (outputs : list string) (B k : Z) (tr : list Event) :
  1 ≤ B → len outputs `mod` B = 0 → len outputs `div` B = k → 1 ≤ k →
  ∃ groups,
    result (reshape_model_outputs outputs B) tr = inr groups ∧
    len groups = B ∧
    Forall (λ g, len g = k) groups ∧
    concat groups = outputs ∧
    (∀ i j : nat, Z.of_nat i < B → Z.of_nat j < k →
       groups !! i ≫= (λ g, g !! j) = outputs !! (i * Z.to_nat k + j)%nat).
Proof.
  intros HB Hmod Hdiv Hk.
  assert (len outputs = B * k) as HM.
  { rewrite (Z.div_mod (len outputs) B) at 1 by lia. lia. }
  destruct (groups_of_exact outputs k B) as (Hlen & Hall & Hcat & Hpos);
    [lia..|].
  exists (groups_of outputs k). unfold result.
  rewrite reshape_pos_step by lia. rewrite Hdiv. simpl.
  rewrite Hlen, Z.eqb_refl.
  destruct (groups_of outputs k) as [|g gs] eqn:Hg.
  { unfold len in Hlen. simpl in Hlen. lia. }
  apply Forall_cons in Hall as [Hg0 Hall']. unfold index. simpl.
  rewrite Hg0, Z.eqb_refl. repeat split; auto.
Qed.

Lemma reshape_divisible_roundtrip_witness :
  ∃ groups,
    result (reshape_model_outputs ["a"; "b"; "c"; "d"; "e"; "f"] 3) [] = inr groups ∧
    len groups = 3 ∧
    Forall (λ g, len g = 2) groups ∧
    concat groups = ["a"; "b"; "c"; "d"; "e"; "f"] ∧
    (∀ i j : nat, Z.of_nat i < 3 → Z.of_nat j < 2 →
       groups !! i ≫= (λ g, g !! j)
       = ["a"; "b"; "c"; "d"; "e"; "f"] !! (i * Z.to_nat 2 + j)%nat).
Proof.
  apply (reshape_divisible_roundtrip ["a"; "b"; "c"; "d"; "e"; "f"] 3 2 []);
    [lia | reflexivity | reflexivity | lia].
Defined.

(** C2, at the input [["a"]] with batch size 2: the length 1 is not a
    multiple of 2, and the call raises the [ValueError] of [range] for a
    zero step, which is none of the validation errors that report the
    mismatch. *)
Theorem reshape_short_not_validation_error :
  result (reshape_model_outputs ["a"] 2) []
  = inl (ValueError "range() arg 3 must not be zero") ∧
  ¬ ReshapeError (ValueError "range() arg 3 must not be zero").
Proof. split; [reflexivity | apply range_error_not_ReshapeError]. Qed.

(** C9: for a batch size [B >= 1] and a flat list shorter than [B] (the
    empty list included), [reshape_model_outputs] raises at the chunking
    step, on the zero step of [range], before either validation check, and
    returns no grouping; nothing is logged. *)
Theorem reshape_short_fails_at_chunking
    (outputs : list string) (B : Z) (tr : list Event) :
  1 ≤ B → len outputs < B →
  result (reshape_model_outputs outputs B) tr
  = inl (ValueError "range() arg 3 must not be zero") ∧
  events (reshape_model_outputs outputs B) tr = tr ∧
  ¬ ReshapeError (ValueError "range() arg 3 must not be zero").
Proof.
  intros HB HM. unfold result, events.
  rewrite reshape_zero_step.
  - repeat split. apply range_error_not_ReshapeError.
  - lia.
  - apply Z.div_small. pose proof (len_nonneg outputs). lia.
Qed.

Lemma reshape_short_fails_at_chunking_witness :
  result (reshape_model_outputs [] 4) []
  = inl (ValueError "range() arg 3 must not be zero") ∧
  events (reshape_model_outputs [] 4) [] = [] ∧
  ¬ ReshapeError (ValueError "range() arg 3 must not be zero").
Proof.
  apply (reshape_short_fails_at_chunking [] 4 []); unfold len; simpl; lia.
Defined.

(** C10: whenever [reshape_model_outputs] returns, for a flat list of
    length [M] and a batch size [B], there are [B] groups, every one of
    them has length [M // B], and [M] is a multiple of [B]. *)
Theorem reshape_success_all_groups
    (outputs : list string) (B : Z) (tr : list Event)
    (groups : list (list string)) :
  result (reshape_model_outputs outputs B) tr = inr groups →
  len outputs `mod` B = 0 ∧
  len groups = B ∧
  Forall (λ g, len g = len outputs `div` B) groups.
Proof.
  unfold result. intros Hres.
  destruct (Z.eq_dec B 0) as [->|HB].
  { rewrite reshape_zero_batch in Hres. discriminate. }
  destruct (Z.lt_trichotomy (len outputs `div` B) 0) as [Hk|[Hk|Hk]].
  { rewrite reshape_neg_step in Hres by done. discriminate. }
  { rewrite reshape_zero_step in Hres by done. discriminate. }
  rewrite reshape_pos_step in Hres by done. simpl in Hres.
  set (k := len outputs `div` B) in *.
  rewrite groups_of_length in Hres by done.
  destruct (Z.eqb_spec ((len outputs + k - 1) `div` k) B) as [Hcount|];
    [|discriminate].
  pose proof (len_nonneg outputs) as HM.
  assert (0 < B) as HBpos.
  { destruct (Z.lt_ge_cases 0 B) as [|Hneg]; [done|].
    assert (B < 0) as HBneg by lia.
    pose proof (Z.div_mod (len outputs) B HB) as Hdm.
    pose proof (Z.mod_neg_bound (len outputs) B HBneg). fold k in Hdm. nia. }
  pose proof (Z.div_mod (len outputs) B HB) as Hdm. fold k in Hdm.
  pose proof (Z.mod_pos_bound (len outputs) B HBpos) as Hr.
  assert (len outputs `mod` B = 0) as Hmod.
  { pose proof (Z.mul_succ_div_gt (len outputs + k - 1) k Hk) as Hlt.
    rewrite Hcount in Hlt. nia. }
  assert (len outputs = B * k) as Hexact by lia.
  destruct (groups_of_exact outputs k B) as (Hlen & Hall & _ & _); [lia..|].
  assert (groups = groups_of outputs k) as ->.
  { destruct (index (groups_of outputs k) 0) as [e|first]; [discriminate|].
    destruct (len first =? k); congruence. }
  auto.
Qed.

Lemma reshape_success_all_groups_witness :
  len ["a"; "b"; "c"; "d"; "e"; "f"] `mod` 3 = 0 ∧
  len [["a"; "b"]; ["c"; "d"]; ["e"; "f"]] = 3 ∧
  Forall (λ g, len g = len ["a"; "b"; "c"; "d"; "e"; "f"] `div` 3)
    [["a"; "b"]; ["c"; "d"]; ["e"; "f"]].
Proof.
  apply (reshape_success_all_groups ["a"; "b"; "c"; "d"; "e"; "f"] 3 []).
  reflexivity.
Defined.

(** ** [InferenceArguments] *)



(** ** [generate_from_model] *)

Lemma reshape_events_cases outputs B tr :
  events (reshape_model_outputs outputs B) tr = tr ∨
  events (reshape_model_outputs outputs B) tr
  = tr ++ [LogInfo (NumberOfReturnSequences (len outputs) B)].
Proof.
  unfold events.
  destruct (Z.eq_dec B 0) as [->|HB]; [rewrite reshape_zero_batch; auto|].
  destruct (Z.lt_trichotomy (len outputs `div` B) 0) as [Hk|[Hk|Hk]].
  - rewrite reshape_neg_step by done. auto.
  - rewrite reshape_zero_step by done. auto.
  - rewrite reshape_pos_step by done. simpl. unfold reshape_events.
    destruct (1 <? _); auto.
Qed.

(** Every call a run makes to the backend is as the specification says, whether
    or not the backend fails. *)
Lemma generate_calls_ok backend args inputs tr :
  ∃ new, events (generate_from_model backend args inputs) tr = tr ++ new ∧
         Forall (call_ok args) new.
Proof.
  unfold generate_from_model. py_simpl.
  destruct (tokenizer_call backend inputs "pt" true) as [e|input_ids]; simpl.
  { eexists; split; [reflexivity|]. repeat constructor. }
  destruct (model_generate backend _) as [e|model_outputs]; simpl.
  { rewrite <- app_assoc. eexists; split; [reflexivity|]. repeat constructor. }
  destruct (tokenizer_batch_decode backend model_outputs true) as [e|decoded];
    simpl.
  { rewrite <- !app_assoc. eexists; split; [reflexivity|]. repeat constructor. }
  match goal with |- context [reshape_model_outputs ?o ?b ?t] =>
    destruct (reshape_events_cases o b t) as [H|H]; unfold events in H;
    rewrite H end;
    rewrite <- !app_assoc; eexists; (split; [reflexivity|]); repeat constructor.
Qed.

(** C7: when the backend tokenizes and generates, the run calls
    [generate] with [early_stopping] set to the negation of the
    configuration's [no_early_stop], then decodes the generated token
    sequences with [skip_special_tokens=True] and reshapes what the decoder
    returns; every backend call of the run is of that form. *)
Theorem generate_negates_no_early_stop
    backend args inputs tr input_ids model_outputs :
  tokenizer_call backend inputs "pt" true = inr input_ids →
  model_generate backend (generate_kwargs args input_ids) = inr model_outputs →
  ∃ new,
    events (generate_from_model backend args inputs) tr = tr ++ new ∧
    Forall (call_ok args) new ∧
    CallGenerate (generate_kwargs args input_ids) ∈ new ∧
    g_early_stopping (generate_kwargs args input_ids)
      = negb (no_early_stop args) ∧
    CallBatchDecode model_outputs true ∈ new ∧
    ∀ decoded,
      tokenizer_batch_decode backend model_outputs true = inr decoded →
      ∃ tr', result (generate_from_model backend args inputs) tr
             = result (reshape_model_outputs decoded (shape input_ids).1) tr'.
Proof.
  intros Htok Hgen.
  destruct (generate_calls_ok backend args inputs tr) as (new & Hev & Hok).
  exists new. split; [done|]. split; [done|].
  revert Hev. unfold generate_from_model. py_simpl.
  rewrite Htok. simpl. rewrite Hgen. simpl.
  destruct (tokenizer_batch_decode backend model_outputs true) as [e|decoded];
    simpl.
  - rewrite <- !app_assoc. intros Hev%app_inv_head. subst new.
    repeat split; [set_solver..|]. intros ? [=].
  - match goal with |- context [reshape_model_outputs ?o ?b ?t] =>
      destruct (reshape_events_cases o b t) as [H|H]; unfold events in H;
      rewrite H end;
      rewrite <- !app_assoc; intros Hev%app_inv_head; subst new;
      (repeat split; [set_solver..|]); intros ? [= <-]; eauto.
Qed.

Lemma generate_negates_no_early_stop_witness :
  ∃ new,
    events (generate_from_model stub_backend stub_args ["a"; "b"; "c"]) []
    = [] ++ new ∧
    Forall (call_ok stub_args) new ∧
    CallGenerate (generate_kwargs stub_args stub_input_ids) ∈ new ∧
    g_early_stopping (generate_kwargs stub_args stub_input_ids)
      = negb (no_early_stop stub_args) ∧
    CallBatchDecode stub_outputs true ∈ new ∧
    ∀ decoded,
      tokenizer_batch_decode stub_backend stub_outputs true = inr decoded →
      ∃ tr', result (generate_from_model stub_backend stub_args ["a"; "b"; "c"]) []
             = result (reshape_model_outputs decoded (shape stub_input_ids).1) tr'.
Proof.
  apply (generate_negates_no_early_stop stub_backend stub_args ["a"; "b"; "c"] []
           stub_input_ids stub_outputs); reflexivity.
Defined.

Example stub_end_to_end :
  result (generate_from_model stub_backend stub_args ["a"; "b"; "c"]) []
  = inr [["a1"; "a2"]; ["b1"; "b2"]; ["c1"; "c2"]].
Proof. reflexivity. Qed.

(** ** [set_max_memory] *)

Lemma mapM_pure {A B} (f : A → M B) (g : A → Except B) xs tr :
  (∀ x tr', f x tr' = (g x, tr')) →
  mapM f xs tr = (collect (g <$> xs), tr).
Proof.
  intros Hf. induction xs as [|x xs IH]; simpl; [done|].
  unfold Py.bind. rewrite Hf. destruct (g x) as [e|y]; simpl; [done|].
  rewrite IH. by destruct (collect _).
Qed.

(** The planner started on any stream returns [plan_result] and appends
    [plan_log]. *)
Lemma set_max_memory_run args cuda tr :
  set_max_memory args cuda tr
  = (plan_result args cuda, tr ++ plan_log args cuda).
Proof.
  unfold set_max_memory, plan_result, plan_log. fold (plans args cuda).
  destruct (plans args cuda) eqn:Hplans; [|by rewrite app_nil_r].
  unfold plan_result. rewrite Hplans. py_simpl.
  destruct (Float.truediv_GiB (total_memory cuda)) as [e|t]; [done|].
  erewrite (mapM_pure _ (device_entry t (max_memory args))).
  - destruct (collect _) as [e|entries]; [done|].
    simpl. by rewrite <- app_assoc.
  - intros i tr'. unfold device_entry.
    destruct (0 <? i); by destruct (Float.floor _).
Qed.

Lemma collect_inr {A B} (h : A → B) (g : A → Except B) xs :
  (∀ x, x ∈ xs → g x = inr (h x)) → collect (g <$> xs) = inr (h <$> xs).
Proof.
  induction xs as [|x xs IH]; intros Hg; [done|].
  rewrite !fmap_cons. cbn [collect]. rewrite Hg by set_solver.
  rewrite IH; [done|]. intros; apply Hg; set_solver.
Qed.

Lemma lookup_dict_of_device (v : Z → string) xs (m0 : gmap key string) i :
  foldl (λ m kv, <[kv.1 := kv.2]> m) m0 ((λ i, (Device i, v i)) <$> xs)
    !! Device i
  = if decide (i ∈ xs) then Some (v i) else m0 !! Device i.
Proof.
  induction xs as [|x xs IH] using rev_ind; simpl.
  - done.
  - rewrite fmap_app, foldl_app. simpl. rewrite lookup_insert.
    destruct (decide (Device x = Device i)) as [Hk|Hk].
    + injection Hk as ->. rewrite decide_True; [done | set_solver].
    + rewrite IH. assert (i ≠ x) by congruence.
      apply decide_ext. rewrite elem_of_app, list_elem_of_singleton. tauto.
Qed.

Lemma range_devices (n : Z) :
  range 0 n 1 = inr ((λ j, 0 + j * 1) <$> seqZ 0 (range_length 0 n 1)).
Proof. reflexivity. Qed.

Lemma elem_of_devices (n i : Z) :
  0 ≤ n →
  i ∈ (λ j, 0 + j * 1) <$> seqZ 0 (range_length 0 n 1) ↔ 0 ≤ i < n.
Proof.
  intros Hn. rewrite range_length_pos by lia.
  replace (n + 1 - 1) with (n * 1) by lia. rewrite Z.div_mul by lia.
  rewrite list_elem_of_fmap. setoid_rewrite elem_of_seqZ.
  split; [intros (j & -> & Hj); lia | intros Hi; exists i; lia].
Qed.

Lemma ltb_zero_truth (f : float) :
  Float.ltb Float.zero f = true → Float.truth f = true.
Proof. by destruct f as [[]|[]| |[] ? ?]. Qed.

Lemma ltb_one_neq (f : float) :
  Float.ltb f Float.one = true → Float.eqb f Float.one = false.
Proof.
  unfold Float.ltb, Float.eqb, SFltb, SFeqb.
  by destruct (SFcompare f Float.one) as [[]|].
Qed.

Lemma budget_map_lookup (n a b : Z) :
  0 ≤ n →
  (∀ i, 0 ≤ i < n →
        budget_map n a b !! Device i = Some (GiB (if 0 <? i then a else b))) ∧
  (∀ i, ¬ 0 ≤ i < n → budget_map n a b !! Device i = None) ∧
  budget_map n a b !! Host "cpu" = Some "400GiB".
Proof.
  intros Hn. unfold budget_map, dict_of. repeat split.
  - intros i Hi. rewrite lookup_insert_ne by done.
    rewrite (lookup_dict_of_device (λ i, GiB (if 0 <? i then a else b))).
    rewrite decide_True; [done|]. by apply elem_of_devices.
  - intros i Hi. rewrite lookup_insert_ne by done.
    rewrite (lookup_dict_of_device (λ i, GiB (if 0 <? i then a else b))).
    rewrite decide_False; [done|]. by rewrite elem_of_devices.
  - by rewrite lookup_insert_eq.
Qed.

Lemma plan_result_planned args cuda t a b :
  plans args cuda = true →
  Float.truediv_GiB (total_memory cuda) = inr t →
  Float.floor (Float.mul t (max_memory args)) = inr a →
  Float.floor (Float.mul (Float.mul t (max_memory args)) Float.c0_6) = inr b →
  plan_result args cuda = inr (Some (budget_map (device_count cuda) a b)).
Proof.
  intros Hplans Ht Ha Hb. unfold plan_result. rewrite Hplans, Ht, range_devices.
  rewrite (collect_inr (λ i, (Device i, GiB (if 0 <? i then a else b)))).
  - reflexivity.
  - intros i _. unfold device_entry. destruct (0 <? i); by rewrite ?Ha, ?Hb.
Qed.

Lemma plans_fraction args cuda :
  1 < device_count cuda →
  Float.ltb Float.zero (max_memory args) = true →
  Float.ltb (max_memory args) Float.one = true →
  plans args cuda = true.
Proof.
  intros HN H0 H1. unfold plans.
  rewrite (ltb_zero_truth _ H0), (ltb_one_neq _ H1). simpl. lia.
Qed.

Lemma planned_budgets args cuda tr t a b :
  1 < device_count cuda →
  plans args cuda = true →
  Float.truediv_GiB (total_memory cuda) = inr t →
  Float.floor (Float.mul t (max_memory args)) = inr a →
  Float.floor (Float.mul (Float.mul t (max_memory args)) Float.c0_6) = inr b →
  ∃ m, result (set_max_memory args cuda) tr = inr (Some m) ∧
       m !! Device 0 = Some (GiB b) ∧
       (∀ i, 0 < i < device_count cuda → m !! Device i = Some (GiB a)) ∧
       (∀ i, ¬ 0 ≤ i < device_count cuda → m !! Device i = None) ∧
       m !! Host "cpu" = Some "400GiB".
Proof.
  intros HN Hplans Ht Ha Hb.
  exists (budget_map (device_count cuda) a b).
  unfold result. rewrite set_max_memory_run.
  rewrite (plan_result_planned args cuda t a b) by done.
  destruct (budget_map_lookup (device_count cuda) a b) as (Hin & Hout & Hcpu);
    [lia|].
  repeat split; auto.
  - by rewrite Hin by lia.
  - intros i Hi. rewrite Hin by lia.
    destruct (Z.ltb_spec 0 i); [done | lia].
Qed.

(** *** Claims about the planner *)

(** C4: when the planner plans, that is with more than one device and a
    memory fraction [f] with [0 < f < 1], it returns a map that gives
    every device index [i] in [0, N) the budget [floor(T * f)] if [i > 0]
    and [floor(T * f * 0.6)] if [i = 0], gives the host key ['cpu'] the
    fixed ['400GiB'], and has no other device; for two devices of 40 GiB
    and [f = 0.8] the budgets are 19 for device 0 and 32 for device 1. *)
Theorem planner_budgets :
  (∀ args cuda tr t a b,
     1 < device_count cuda →
     Float.ltb Float.zero (max_memory args) = true →
     Float.ltb (max_memory args) Float.one = true →
     Float.truediv_GiB (total_memory cuda) = inr t →
     Float.floor (Float.mul t (max_memory args)) = inr a →
     Float.floor (Float.mul (Float.mul t (max_memory args)) Float.c0_6)
       = inr b →
     ∃ m, result (set_max_memory args cuda) tr = inr (Some m) ∧
          m !! Device 0 = Some (GiB b) ∧
          (∀ i, 0 < i < device_count cuda → m !! Device i = Some (GiB a)) ∧
          (∀ i, ¬ 0 ≤ i < device_count cuda → m !! Device i = None) ∧
          m !! Host "cpu" = Some "400GiB") ∧
  (Float.truediv_GiB (total_memory cuda_2x40) = inr forty ∧
   ∃ m, result (set_max_memory args_0_8 cuda_2x40) [] = inr (Some m) ∧
        m !! Device 0 = Some "19GiB" ∧
        m !! Device 1 = Some "32GiB" ∧
        m !! Host "cpu" = Some "400GiB").
Proof.
  split.
  - intros args cuda tr t a b HN H0 H1 Ht Ha Hb.
    apply (planned_budgets args cuda tr t a b); auto using plans_fraction.
  - split; [reflexivity|].
    destruct (planned_budgets args_0_8 cuda_2x40 [] forty 32 19)
      as (m & Hm & H0 & H1 & _ & Hcpu); [reflexivity..|].
    exists m. repeat split; [done | done | | done].
    rewrite H1 by (simpl; lia). reflexivity.
Qed.

Lemma planner_budgets_witness :
  ∃ m, result (set_max_memory args_0_8 cuda_2x40) [] = inr (Some m) ∧
       m !! Device 0 = Some (GiB 19) ∧
       (∀ i, 0 < i < device_count cuda_2x40 → m !! Device i = Some (GiB 32)) ∧
       (∀ i, ¬ 0 ≤ i < device_count cuda_2x40 → m !! Device i = None) ∧
       m !! Host "cpu" = Some "400GiB".
Proof.
  apply (proj1 planner_budgets args_0_8 cuda_2x40 [] forty 32 19);
    reflexivity.
Defined.

(** C5: with a memory fraction equal to 1.0, or with at most one device,
    the planner returns [None], whatever the total memory of the device,
    and logs nothing. *)
Theorem planner_skips args cuda tr :
  Float.eqb (max_memory args) Float.one = true ∨ device_count cuda ≤ 1 →
  result (set_max_memory args cuda) tr = inr None ∧
  events (set_max_memory args cuda) tr = tr.
Proof.
  intros H. unfold result, events. rewrite set_max_memory_run. simpl.
  assert (plans args cuda = false) as Hplans.
  { unfold plans. destruct H as [->|HN].
    - by rewrite andb_false_r.
    - destruct (Z.ltb_spec 1 (device_count cuda)); [lia|].
      by rewrite andb_false_r. }
  unfold plan_result, plan_log. rewrite Hplans. by rewrite app_nil_r.
Qed.

Lemma planner_skips_witness :
  result (set_max_memory (defaults "model") cuda_2x40) [] = inr None ∧
  events (set_max_memory (defaults "model") cuda_2x40) [] = [].
Proof.
  apply (planner_skips (defaults "model") cuda_2x40 []). left. reflexivity.
Defined.

(** C8: the planner is deterministic.  What it returns is a function of
    the device count, the memory fraction and the total memory of a device
    and of nothing else: two calls that agree on these three return the
    same budget map (or both [None], or raise the same exception), whatever
    the other fields of the two configurations are and whatever happened
    before each call.  In particular a second call made right after the
    first, when the first has already logged, returns what the first
    returned. *)
Theorem planner_deterministic args1 args2 cuda1 cuda2 tr1 tr2 :
  device_count cuda1 = device_count cuda2 →
  max_memory args1 = max_memory args2 →
  total_memory cuda1 = total_memory cuda2 →
  result (set_max_memory args1 cuda1) tr1
  = result (set_max_memory args2 cuda2) tr2 ∧
  result (r1 <- set_max_memory args1 cuda1 ;;
          r2 <- set_max_memory args2 cuda2 ;;
          ret (r1, r2)) tr1
  = match result (set_max_memory args1 cuda1) tr1 with
    | inl e => inl e
    | inr r => inr (r, r)
    end.
Proof.
  intros HN Hf HT.
  assert (plan_result args2 cuda2 = plan_result args1 cuda1) as Hsame.
  { unfold plan_result, plans. by rewrite HN, Hf, HT. }
  unfold result, Py.bind, Py.ret. rewrite !set_max_memory_run. simpl.
  split; [done|].
  rewrite Hsame. by destruct (plan_result args1 cuda1) as [e|r].
Qed.

Lemma planner_deterministic_witness :
  result (set_max_memory args_0_8 cuda_2x40) []
  = result (set_max_memory
              (assign (assign args_0_8 (kw_seed 7)) (kw_batch_size 1))
              cuda_2x40) [LogInfo InferingMaxMemory] ∧
  result (r1 <- set_max_memory args_0_8 cuda_2x40 ;;
          r2 <- set_max_memory
                  (assign (assign args_0_8 (kw_seed 7)) (kw_batch_size 1))
                  cuda_2x40 ;;
          ret (r1, r2)) []
  = match result (set_max_memory args_0_8 cuda_2x40) [] with
    | inl e => inl e
    | inr r => inr (r, r)
    end.
Proof.
  apply (planner_deterministic args_0_8
           (assign (assign args_0_8 (kw_seed 7)) (kw_batch_size 1))
           cuda_2x40 cuda_2x40 [] [LogInfo InferingMaxMemory]);
    reflexivity.
Defined.

(** ** Rounding in binary64 *)

Section Rounding.

Lemma shr_1_m mrs : 0 ≤ shr_m mrs → shr_m (shr_1 mrs) = shr_m mrs `div` 2.
Proof.
  destruct mrs as [[|[p|p|]|p] r s]; cbn [shr_1 shr_m]; intros H;
    try lia; try reflexivity.
  - apply Z.div_unique with 1; lia.
  - apply Z.div_unique with 0; lia.
Qed.

Lemma shr_1_nonneg mrs : 0 ≤ shr_m mrs → 0 ≤ shr_m (shr_1 mrs).
Proof. intros H. rewrite shr_1_m by done. apply Z.div_pos; lia. Qed.

Lemma pow2_xO p : 2 ^ Z.pos p~0 = 2 ^ Z.pos p * 2 ^ Z.pos p.
Proof.
  rewrite <- Z.pow_add_r by lia. f_equal; lia.
Qed.

Lemma pow2_xI p : 2 ^ Z.pos p~1 = 2 * (2 ^ Z.pos p * 2 ^ Z.pos p).
Proof.
  rewrite <- pow2_xO, <- Z.pow_succ_r by lia. f_equal; lia.
Qed.

Lemma iter_pos_shr_1 p mrs :
  0 ≤ shr_m mrs →
  shr_m (SpecFloat.iter_pos shr_1 p mrs) = shr_m mrs `div` 2 ^ Z.pos p.
Proof.
  revert mrs. induction p as [p IH|p IH|]; intros mrs Hm; simpl.
  - assert (0 ≤ shr_m (shr_1 mrs)) as H1 by (by apply shr_1_nonneg).
    assert (0 ≤ shr_m (SpecFloat.iter_pos shr_1 p (shr_1 mrs))) as H2.
    { rewrite IH by done. apply Z.div_pos; lia. }
    rewrite !IH, shr_1_m by done.
    rewrite !Z.div_div by lia. by rewrite pow2_xI.
  - assert (0 ≤ shr_m (SpecFloat.iter_pos shr_1 p mrs)) as H2.
    { rewrite IH by done. apply Z.div_pos; lia. }
    rewrite !IH by done.
    rewrite Z.div_div by lia. by rewrite pow2_xO.
  - rewrite shr_1_m by done. reflexivity.
Qed.

Lemma shr_spec mrs e n mrs' e' :
  0 ≤ shr_m mrs → shr mrs e n = (mrs', e') →
  e' = e + Z.max 0 n ∧ shr_m mrs' = shr_m mrs `div` 2 ^ Z.max 0 n ∧
  (n ≤ 0 → mrs' = mrs).
Proof.
  intros Hm. unfold shr. destruct n as [|p|p]; intros [= <- <-].
  - simpl. rewrite Z.div_1_r. split; [lia|done].
  - rewrite Z.max_r by lia. split; [done|]. split; [|lia].
    by apply iter_pos_shr_1.
  - simpl. rewrite Z.div_1_r. split; [lia|done].
Qed.

Lemma round_nearest_even_bounds m l :
  m ≤ round_nearest_even m l ≤ m + 1.
Proof.
  unfold round_nearest_even. destruct l as [|[]]; try lia.
  destruct (Z.even m); lia.
Qed.

Lemma digits2_pos_log2 p : Z.pos (digits2_pos p) = Z.log2 (Z.pos p) + 1.
Proof.
  induction p as [p IH|p IH|]; simpl; [| |done].
  - rewrite Pos2Z.inj_succ, IH. destruct p; simpl; lia.
  - rewrite Pos2Z.inj_succ, IH. destruct p; simpl; lia.
Qed.

(** The mantissa has [d] binary digits. *)
Lemma digits2_pos_bounds p :
  2 ^ (Z.pos (digits2_pos p) - 1) ≤ Z.pos p < 2 ^ Z.pos (digits2_pos p).
Proof.
  rewrite digits2_pos_log2.
  replace (Z.log2 (Z.pos p) + 1 - 1) with (Z.log2 (Z.pos p)) by lia.
  replace (Z.log2 (Z.pos p) + 1) with (Z.succ (Z.log2 (Z.pos p))) by lia.
  apply Z.log2_spec. lia.
Qed.

Variables prec emax : Z.

(** Rounding to nearest moves a positive [m * 2^e] up by less than one
    unit of the position [n] it is shifted by, and not at all when it is
    not shifted. *)
Lemma binary_round_aux_finite s (m : positive) e s' m' e' :
  binary_round_aux prec emax s (Z.pos m) e loc_Exact = S754_finite s' m' e' →
  let n := Z.max 0 (fexp prec emax (Z.pos (digits2_pos m) + e) - e) in
  s' = s ∧ ∃ k, n ≤ k ∧ e' = e + k ∧
    Z.pos m' * 2 ^ k ≤ Z.pos m + (if n =? 0 then 0 else 2 ^ n).
Proof.
  unfold binary_round_aux, shr_fexp. simpl Zdigits2. simpl shr_record_of_loc.
  set (n0 := fexp prec emax (Z.pos (digits2_pos m) + e) - e).
  destruct (shr _ e n0) as [mrs1 e1] eqn:Hshr1.
  apply shr_spec in Hshr1 as (He1 & Hm1 & Hid1); [|simpl; lia].
  simpl in Hm1.
  set (m2 := round_nearest_even (shr_m mrs1) (loc_of_shr_record mrs1)).
  pose proof (round_nearest_even_bounds (shr_m mrs1) (loc_of_shr_record mrs1))
    as Hm2. fold m2 in Hm2.
  assert (0 ≤ shr_m mrs1) as Hm1pos.
  { rewrite Hm1. apply Z.div_pos; lia. }
  set (n1 := fexp prec emax (Zdigits2 m2 + e1) - e1).
  destruct (shr _ e1 n1) as [mrs2 e2] eqn:Hshr2.
  apply shr_spec in Hshr2 as (He2 & Hm3 & _).
  2:{ destruct m2; simpl; lia. }
  cbn [shr_record_of_loc shr_m] in Hm3.
  destruct (shr_m mrs2) as [|m3|] eqn:Hm3'; try discriminate.
  destruct (e2 <=? emax - prec); intros [= <- <- <-].
  split; [done|]. exists (Z.max 0 n0 + Z.max 0 n1).
  split; [lia|]. split; [lia|].
  rewrite Z.pow_add_r by lia.
  assert (Z.pos m3 * 2 ^ Z.max 0 n1 ≤ m2) as Hle3.
  { rewrite Hm3, Z.mul_comm. apply Z.mul_div_le. lia. }
  assert (0 < 2 ^ Z.max 0 n0) as Hpow by (apply Z.pow_pos_nonneg; lia).
  destruct (Z.eqb_spec (Z.max 0 n0) 0) as [Hz|Hnz].
  - rewrite Hz in *. assert (n0 ≤ 0) as Hn0 by lia.
    subst m2. rewrite (Hid1 Hn0) in Hle3. simpl in Hle3. lia.
  - assert (shr_m mrs1 * 2 ^ Z.max 0 n0 ≤ Z.pos m) as Hle1.
    { rewrite Hm1, Z.mul_comm. apply Z.mul_div_le. lia. }
    nia.
Qed.

End Rounding.

Section Values.

Local Open Scope Q_scope.

Lemma pow2_pos e : 0 < 2 ^ e.
Proof. apply Qpower_0_lt. reflexivity. Qed.

Lemma pow2_add a b : 2 ^ (a + b) == 2 ^ a * 2 ^ b.
Proof. apply Qpower_plus. discriminate. Qed.

Lemma pow2_inject (k : Z) : (0 ≤ k)%Z → 2 ^ k == inject_Z (2 ^ k).
Proof. intros Hk. symmetry. apply (Zpower_Qpower 2 k Hk). Qed.

Lemma value_mul m1 e1 m2 e2 :
  value (m1 * m2) (e1 + e2) == value m1 e1 * value m2 e2.
Proof. unfold value. rewrite inject_Z_mult, pow2_add. ring. Qed.

(** Scaling by [2^k] for [k >= 0]. *)
Lemma value_shift m e k :
  (0 ≤ k)%Z → value (m * 2 ^ k) e == value m (e + k).
Proof.
  intros Hk. unfold value.
  rewrite inject_Z_mult, pow2_add, <- pow2_inject by done. ring.
Qed.

Lemma value_le m1 m2 e : (m1 ≤ m2)%Z → value m1 e <= value m2 e.
Proof.
  intros H. unfold value. apply Qmult_le_compat_r.
  - by rewrite <- Zle_Qle.
  - apply Qlt_le_weak, pow2_pos.
Qed.

Lemma value_lt m1 m2 e : (m1 < m2)%Z → value m1 e < value m2 e.
Proof.
  intros H. unfold value. apply Qmult_lt_compat_r.
  - apply pow2_pos.
  - by rewrite <- Zlt_Qlt.
Qed.

(** [Float.floor_finite] is the floor of the value. *)
Lemma floor_finite_bounds m e :
  inject_Z (Float.floor_finite false m e) <= value (Z.pos m) e
  ∧ value (Z.pos m) e < inject_Z (Float.floor_finite false m e + 1).
Proof.
  unfold Float.floor_finite. simpl cond_Zopp.
  destruct (Z.leb_spec 0 e) as [He|He].
  - assert (inject_Z (Z.pos m * 2 ^ e) == value (Z.pos m) e) as Heq.
    { unfold value. rewrite inject_Z_mult, pow2_inject by done. reflexivity. }
    rewrite <- Heq. split; [apply Qle_refl|]. rewrite <- Zlt_Qlt. lia.
  - set (k := (- e)%Z). set (q := (Z.pos m `div` 2 ^ k)%Z).
    assert (0 < 2 ^ k)%Z as Hpow by (apply Z.pow_pos_nonneg; lia).
    assert (∀ z, inject_Z z == value (z * 2 ^ k) e) as Hz.
    { intros z. rewrite value_shift by lia.
      unfold value. replace (e + k)%Z with 0%Z by lia.
      change (2 ^ 0) with 1. ring. }
    rewrite !Hz. split.
    + apply value_le. unfold q. rewrite Z.mul_comm.
      apply Z.mul_div_le. lia.
    + apply value_lt. unfold q.
      pose proof (Z.mul_succ_div_gt (Z.pos m) (2 ^ k) Hpow). lia.
Qed.

End Values.

Section Binary64.

Local Open Scope Q_scope.

Lemma value_pos m e : 0 < value (Z.pos m) e.
Proof.
  unfold value. apply Qmult_lt_0_compat; [reflexivity | apply pow2_pos].
Qed.

Lemma value_pow2 k e : (0 ≤ k)%Z → value (2 ^ k) e == 2 ^ (e + k).
Proof.
  intros Hk. rewrite <- (Z.mul_1_l (2 ^ k)), value_shift by done.
  unfold value. ring.
Qed.

(** In binary64, rounding a positive product to nearest increases it by
    at most the relative error [2^-52], or by the least subnormal. *)
Lemma binary64_round_upper s (m : positive) e s' m' e' :
  binary_round_aux 53 1024 s (Z.pos m) e loc_Exact = S754_finite s' m' e' →
  s' = s ∧
  value (Z.pos m') e'
  <= value (Z.pos m) e * (1 + 2 ^ (-52)) + 2 ^ (-1074).
Proof.
  intros Hround.
  apply binary_round_aux_finite in Hround as (Hs & k & Hnk & -> & Hle).
  split; [done|].
  set (d := Z.pos (digits2_pos m)) in *.
  set (n := Z.max 0 (fexp 53 1024 (d + e) - e)) in *.
  pose proof (value_pos m e) as HV.
  pose proof (pow2_pos (-52)) as H52. pose proof (pow2_pos (-1074)) as Ht.
  rewrite <- value_shift by lia.
  eapply Qle_trans; [apply value_le, Hle|].
  assert (∀ x y, value (x + y) e == value x e + value y e) as Hadd.
  { intros x y. unfold value. rewrite inject_Z_plus. ring. }
  rewrite Hadd.
  destruct (Z.eqb_spec n 0) as [Hn0|Hn0].
  { assert (value 0 e == 0) as -> by (unfold value; ring). nra. }
  rewrite value_pow2 by lia.
  assert (e + n = Z.max (d + e - 53) (-1074))%Z as Hen.
  { unfold n, fexp, emin in *. lia. }
  destruct (Z.max_spec (d + e - 53) (-1074)) as [[_ Hmax]|[_ Hmax]];
    rewrite Hen, Hmax.
  - nra.
  - assert (2 ^ (d + e - 53) <= value (Z.pos m) e * 2 ^ (-52)) as Hulp.
    { replace (d + e - 53)%Z with ((e + (d - 1)) + (-52))%Z by lia.
      rewrite pow2_add, <- value_pow2 by (unfold d; lia).
      apply Qmult_le_compat_r; [|lra].
      apply value_le. apply digits2_pos_bounds. }
    nra.
Qed.

(** The floor of [x * 0.6] against the floor of a positive [x]. *)
Lemma floor_mul_0_6 (mx : positive) (ex : Z) s' my ey :
  Float.mul (S754_finite false mx ex) Float.c0_6 = S754_finite s' my ey →
  (0 ≤ Float.floor_finite false mx ex
   ∧ Float.floor_finite s' my ey ≤ Float.floor_finite false mx ex
   ∧ (2 ≤ Float.floor_finite false mx ex
      → Float.floor_finite s' my ey < Float.floor_finite false mx ex))%Z.
Proof.
  unfold Float.mul, Float.c0_6, Float.prec, Float.emax, SFmul. simpl xorb. intros Hmul.
  apply binary64_round_upper in Hmul as [-> HY].
  pose proof (floor_finite_bounds mx ex) as [Ha1 Ha2].
  pose proof (floor_finite_bounds my ey) as [Hb1 Hb2].
  set (a := Float.floor_finite false mx ex) in *.
  set (b := Float.floor_finite false my ey) in *.
  pose proof (value_pos mx ex) as HX.
  rewrite Pos2Z.inj_mul, value_mul in HY.
  set (X := value (Z.pos mx) ex) in *. set (Y := value (Z.pos my) ey) in *.
  assert (value 5404319552844595 (-53) * (1 + 2 ^ (-52)) <= 61 # 100) as HK
    by (apply Qle_bool_iff; vm_compute; reflexivity).
  assert (2 ^ (-1074) <= 1 # 1000) as Ht
    by (apply Qle_bool_iff; vm_compute; reflexivity).
  set (K := value 5404319552844595 (-53)) in *.
  assert (Y <= X * (61 # 100) + (1 # 1000)) as HY'.
  { apply Qle_trans with (X * (K * (1 + 2 ^ (-52))) + 2 ^ (-1074)).
    - rewrite Qmult_assoc. exact HY.
    - apply Qplus_le_compat; [|exact Ht].
      apply Qmult_le_l; [exact HX | exact HK]. }
  rewrite inject_Z_plus in Ha2, Hb2. change (inject_Z 1) with 1 in *.
  assert (0 ≤ a)%Z as Ha0.
  { apply Z.lt_succ_r. rewrite Zlt_Qlt. unfold Z.succ.
    rewrite inject_Z_plus. change (inject_Z 1) with 1.
    change (inject_Z 0) with 0. lra. }
  split; [done|]. split.
  - apply Z.lt_succ_r. rewrite Zlt_Qlt. unfold Z.succ.
    rewrite inject_Z_plus. change (inject_Z 1) with 1.
    rewrite Zle_Qle in Ha0. change (inject_Z 0) with 0 in Ha0. lra.
  - intros H2. rewrite Zlt_Qlt. rewrite Zle_Qle in H2.
    change (inject_Z 2) with 2 in H2. lra.
Qed.

End Binary64.

(** ** Device 0 against the other devices *)

Lemma floor_finite_nonneg m e : 0 ≤ Float.floor_finite false m e.
Proof.
  unfold Float.floor_finite. simpl. destruct (Z.leb_spec 0 e).
  - apply Z.mul_nonneg_nonneg; [lia|]. apply Z.pow_nonneg. lia.
  - apply Z.div_pos; [lia|]. apply Z.pow_pos_nonneg; lia.
Qed.

(** Rounding keeps the sign it is given. *)
Lemma binary_round_aux_sign prec emax s m e l :
  match binary_round_aux prec emax s m e l with
  | S754_zero s' | S754_infinity s' | S754_finite s' _ _ => s' = s
  | S754_nan => True
  end.
Proof.
  unfold binary_round_aux.
  destruct (shr_fexp prec emax m e l) as [mrs1 e1].
  destruct (shr_fexp prec emax _ e1 loc_Exact) as [mrs2 e2].
  destruct (shr_m mrs2); [done | | done].
  by destruct (e2 <=? emax - prec).
Qed.

(** The quotient of a positive integer by [2^30] is not negative. *)
Lemma truediv_GiB_positive (a : Z) (t : float) :
  0 < a → Float.truediv_GiB a = inr t →
  t = S754_zero false ∨ t = S754_nan ∨ ∃ m e, t = S754_finite false m e.
Proof.
  intros Ha. destruct a as [|p|p]; try lia. clear Ha.
  unfold Float.truediv_GiB, binary_normalize, binary_round.
  destruct (shl_align p (-30) _) as [mz ez].
  pose proof (binary_round_aux_sign Float.prec Float.emax false (Z.pos mz) ez
                loc_Exact) as Hs.
  destruct (binary_round_aux _ _ _ _ _ _) as [s|s| |s m e]; intros [= <-];
    subst; eauto.
Qed.

(** A fraction strictly between 0 and 1 is a positive finite float. *)
Lemma fraction_finite (f : float) :
  Float.ltb Float.zero f = true → Float.ltb f Float.one = true →
  ∃ m e, f = S754_finite false m e.
Proof.
  destruct f as [[]|[]| |[] m e]; try discriminate; eauto.
Qed.

(** The two floors of the planner, for a positive total and a fraction in
    (0, 1). *)
Lemma floors_ordered (total : Z) (t f : float) (a b : Z) :
  0 < total → Float.truediv_GiB total = inr t →
  Float.ltb Float.zero f = true → Float.ltb f Float.one = true →
  Float.floor (Float.mul t f) = inr a →
  Float.floor (Float.mul (Float.mul t f) Float.c0_6) = inr b →
  b ≤ a ∧ (2 ≤ a → b < a).
Proof.
  intros Htotal Ht H0 H1 Ha Hb.
  destruct (fraction_finite f H0 H1) as (mf & ef & ->).
  destruct (truediv_GiB_positive total t Htotal Ht)
    as [->|[->|(mt & et & ->)]].
  - simpl in Ha, Hb. injection Ha as <-. injection Hb as <-. lia.
  - discriminate Ha.
  - unfold Float.mul at 1 in Ha. unfold Float.mul at 2 in Hb.
    unfold SFmul in Ha, Hb. simpl xorb in Ha, Hb.
    pose proof (binary_round_aux_sign Float.prec Float.emax false
                  (Z.pos (mt * mf)) (et + ef) loc_Exact) as Hs.
    destruct (binary_round_aux _ _ _ _ _ _) as [s|s| |s mx ex];
      try discriminate Ha; subst s.
    + simpl in Ha, Hb. injection Ha as <-. injection Hb as <-. lia.
    + simpl in Ha. injection Ha as <-.
      pose proof (floor_finite_nonneg mx ex) as Hnn.
      destruct (Float.mul (S754_finite false mx ex) Float.c0_6)
        as [s|s| |s my ey] eqn:Hy; try discriminate Hb.
      * simpl in Hb. injection Hb as <-. lia.
      * simpl in Hb. injection Hb as <-.
        apply floor_mul_0_6 in Hy. lia.
Qed.

Lemma collect_inl {A B} (g : A → Except B) xs x e :
  x ∈ xs → g x = inl e → ∃ e', collect (g <$> xs) = inl e'.
Proof.
  intros Hx Hg. induction xs as [|y xs IH]; [by apply elem_of_nil in Hx|].
  rewrite fmap_cons. cbn [collect].
  destruct (g y) as [e1|b] eqn:Hy; [eauto|].
  apply elem_of_cons in Hx as [->|Hx]; [congruence|].
  destruct (IH Hx) as [e' ->]. eauto.
Qed.

(** A plan for more than one device needs both floors. *)
Lemma plan_result_floors args cuda m :
  1 < device_count cuda →
  plan_result args cuda = inr (Some m) →
  ∃ t a b,
    plans args cuda = true ∧
    Float.truediv_GiB (total_memory cuda) = inr t ∧
    Float.floor (Float.mul t (max_memory args)) = inr a ∧
    Float.floor (Float.mul (Float.mul t (max_memory args)) Float.c0_6) = inr b.
Proof.
  intros HN. unfold plan_result.
  destruct (plans args cuda); [|discriminate].
  destruct (Float.truediv_GiB (total_memory cuda)) as [e|t]; [discriminate|].
  rewrite range_devices. intros Hres.
  destruct (Float.floor (Float.mul t (max_memory args))) as [e|a] eqn:Ha.
  { destruct (collect_inl (device_entry t (max_memory args))
                ((λ j, 0 + j * 1) <$> seqZ 0 (range_length 0 (device_count cuda) 1))
                1 e) as [e' He'].
    - apply elem_of_devices; lia.
    - unfold device_entry. simpl. by rewrite Ha.
    - rewrite He' in Hres. discriminate. }
  destruct (Float.floor (Float.mul (Float.mul t (max_memory args)) Float.c0_6))
    as [e|b] eqn:Hb.
  { destruct (collect_inl (device_entry t (max_memory args))
                ((λ j, 0 + j * 1) <$> seqZ 0 (range_length 0 (device_count cuda) 1))
                0 e) as [e' He'].
    - apply elem_of_devices; lia.
    - unfold device_entry. simpl. by rewrite Hb.
    - rewrite He' in Hres. discriminate. }
  eauto 10.
Qed.

(** C6, refuted as stated: with two devices of 40 GiB and the valid memory
    fraction 0.02 the planner plans, and device 0 and device 1 both get
    ['0GiB']. *)
Lemma device0_not_strictly_less :
  ∃ m, 1 < device_count cuda_2x40 ∧
       Float.ltb Float.zero (max_memory args_0_02) = true ∧
       Float.ltb (max_memory args_0_02) Float.one = true ∧
       result (set_max_memory args_0_02 cuda_2x40) [] = inr (Some m) ∧
       ¬ device0_strictly_less m (device_count cuda_2x40).
Proof.
  destruct (planned_budgets args_0_02 cuda_2x40 [] forty 0 0)
    as (m & Hm & H0 & H1 & _); [reflexivity..|].
  exists m. repeat split; [done|].
  intros Hless. specialize (Hless 1 0 0). simpl in Hless.
  specialize (H1 1). simpl in H1.
  assert (0 < 0) by (apply Hless; [lia | done | apply H1; lia]). lia.
Qed.

(** The smaller floor is not negative. *)
Lemma floor_device0_nonneg (total : Z) (t f : float) (b : Z) :
  0 < total → Float.truediv_GiB total = inr t →
  Float.ltb Float.zero f = true → Float.ltb f Float.one = true →
  Float.floor (Float.mul (Float.mul t f) Float.c0_6) = inr b →
  0 ≤ b.
Proof.
  intros Htotal Ht H0 H1 Hb.
  destruct (fraction_finite f H0 H1) as (mf & ef & ->).
  destruct (truediv_GiB_positive total t Htotal Ht)
    as [->|[->|(mt & et & ->)]];
    [simpl in Hb; injection Hb as <-; lia | discriminate Hb |].
  unfold Float.mul at 2 in Hb. unfold SFmul in Hb. simpl xorb in Hb.
  pose proof (binary_round_aux_sign Float.prec Float.emax false
                (Z.pos (mt * mf)) (et + ef) loc_Exact) as Hs.
  destruct (binary_round_aux _ _ _ _ _ _) as [s|s| |s mx ex];
    try discriminate Hb; subst s.
  { simpl in Hb. injection Hb as <-. lia. }
  unfold Float.mul, Float.c0_6, SFmul in Hb. simpl xorb in Hb.
  pose proof (binary_round_aux_sign Float.prec Float.emax false
                (Z.pos (mx * 5404319552844595)) (ex + -53) loc_Exact) as Hs.
  destruct (binary_round_aux _ _ _ _ _ _) as [s|s| |s my ey];
    try discriminate Hb; subst s; simpl in Hb; injection Hb as <-;
    [lia | apply floor_finite_nonneg].
Qed.

(** C6, amended: for every budget map the planner returns with more than
    one device, a memory fraction in (0, 1) and a positive total memory,
    with [T] the total memory in GiB as the planner computes it, the
    devices [1 .. N-1] all get [floor(T * f)] and device 0 gets
    [floor(T * f * 0.6)], both floors being those of the planner's own
    binary64 products.  The budget of device 0 is not negative, is never
    more than that of the others, is strictly less whenever the others get
    at least 2 GiB, and is equal to theirs (both 0) when they get 0 GiB. *)
Theorem device0_budget_at_most args cuda tr m :
  1 < device_count cuda →
  Float.ltb Float.zero (max_memory args) = true →
  Float.ltb (max_memory args) Float.one = true →
  0 < total_memory cuda →
  result (set_max_memory args cuda) tr = inr (Some m) →
  ∃ t a b,
    Float.truediv_GiB (total_memory cuda) = inr t ∧
    Float.floor (Float.mul t (max_memory args)) = inr a ∧
    Float.floor (Float.mul (Float.mul t (max_memory args)) Float.c0_6)
    = inr b ∧
    m !! Device 0 = Some (GiB b) ∧
    (∀ i, 1 ≤ i < device_count cuda → m !! Device i = Some (GiB a)) ∧
    0 ≤ b ∧ b ≤ a ∧ (2 ≤ a → b < a) ∧ (a = 0 → b = 0).
Proof.
  intros HN H0 H1 HT Hres.
  assert (plan_result args cuda = inr (Some m)) as Hplan.
  { revert Hres. unfold result. by rewrite set_max_memory_run. }
  destruct (plan_result_floors args cuda m HN Hplan)
    as (t & a & b & Hplans & Ht & Ha & Hb).
  destruct (planned_budgets args cuda tr t a b HN Hplans Ht Ha Hb)
    as (m' & Hm' & Hdev0 & Hdev & _).
  assert (m' = m) as -> by congruence.
  destruct (floors_ordered (total_memory cuda) t (max_memory args) a b)
    as [Hba Hlt]; [done..|].
  pose proof (floor_device0_nonneg (total_memory cuda) t (max_memory args) b
                HT Ht H0 H1 Hb) as Hb0.
  exists t, a, b. repeat split; [done.. | | done | done | done | lia].
  intros i Hi. apply Hdev. lia.
Qed.

Lemma device0_budget_at_most_witness :
  ∃ t a b,
    Float.truediv_GiB (total_memory cuda_2x40) = inr t ∧
    Float.floor (Float.mul t (max_memory args_0_8)) = inr a ∧
    Float.floor (Float.mul (Float.mul t (max_memory args_0_8)) Float.c0_6)
    = inr b ∧
    budget_map 2 32 19 !! Device 0 = Some (GiB b) ∧
    (∀ i, 1 ≤ i < device_count cuda_2x40 →
          budget_map 2 32 19 !! Device i = Some (GiB a)) ∧
    0 ≤ b ∧ b ≤ a ∧ (2 ≤ a → b < a) ∧ (a = 0 → b = 0).
Proof.
  apply (device0_budget_at_most args_0_8 cuda_2x40 [] (budget_map 2 32 19));
    [simpl; lia | reflexivity | reflexivity | simpl; lia |].
  unfold result. rewrite set_max_memory_run.
  apply (plan_result_planned args_0_8 cuda_2x40 forty 32 19); reflexivity.
Defined.

(** * Further properties *)

(** ** More on [reshape_model_outputs] *)

(** The count check passes only when the length is an exact multiple. *)
Lemma count_eq_exact (M B : Z) :
  0 ≤ M → B ≠ 0 → 0 < M `div` B →
  (M + M `div` B - 1) `div` (M `div` B) = B →
  0 < B ∧ M = B * (M `div` B).
Proof.
  intros HM HB Hk Hcount. set (k := M `div` B) in *.
  assert (0 < B) as HBpos.
  { destruct (Z.lt_ge_cases 0 B) as [|Hneg]; [done|].
    assert (B < 0) as HBneg by lia.
    pose proof (Z.div_mod M B HB) as Hdm.
    pose proof (Z.mod_neg_bound M B HBneg). fold k in Hdm. nia. }
  split; [done|].
  pose proof (Z.div_mod M B HB) as Hdm. fold k in Hdm.
  pose proof (Z.mod_pos_bound M B HBpos) as Hr.
  pose proof (Z.mul_succ_div_gt (M + k - 1) k Hk) as Hlt.
  rewrite Hcount in Hlt. nia.
Qed.

(** The run on a list whose length is [B * k]. *)
Lemma reshape_exact (outputs : list string) (B k : Z) tr :
  1 ≤ B → 1 ≤ k → len outputs = B * k →
  reshape_model_outputs outputs B tr
  = (inr (groups_of outputs k), reshape_events outputs B tr).
Proof.
  intros HB Hk HM.
  assert (len outputs `div` B = k) as Hdiv.
  { rewrite HM, Z.mul_comm. apply Z.div_mul. lia. }
  destruct (groups_of_exact outputs k B) as (Hlen & Hall & _); [lia..|].
  rewrite reshape_pos_step by lia. rewrite Hdiv. simpl.
  rewrite Hlen, Z.eqb_refl.
  destruct (groups_of outputs k) as [|g gs] eqn:Hg.
  { unfold len in Hlen. simpl in Hlen. lia. }
  apply Forall_cons in Hall as [Hg0 _]. unfold index. simpl.
  by rewrite Hg0, Z.eqb_refl.
Qed.

(** What a successful run tells about its input. *)
Lemma reshape_success_inv (outputs : list string) (B : Z) tr groups :
  (reshape_model_outputs outputs B tr).1 = inr groups →
  1 ≤ B ∧ 1 ≤ len outputs `div` B ∧
  len outputs = B * (len outputs `div` B) ∧
  groups = groups_of outputs (len outputs `div` B).
Proof.
  intros Hres.
  destruct (Z.eq_dec B 0) as [->|HB].
  { rewrite reshape_zero_batch in Hres. discriminate. }
  destruct (Z.lt_trichotomy (len outputs `div` B) 0) as [Hk|[Hk|Hk]].
  { rewrite reshape_neg_step in Hres by done. discriminate. }
  { rewrite reshape_zero_step in Hres by done. discriminate. }
  rewrite reshape_pos_step in Hres by done. simpl in Hres.
  rewrite groups_of_length in Hres by done.
  destruct (Z.eqb_spec ((len outputs + len outputs `div` B - 1)
                          `div` (len outputs `div` B)) B) as [Hcount|];
    [|discriminate].
  destruct (count_eq_exact (len outputs) B) as [HBpos Hexact];
    auto using len_nonneg.
  repeat split; [lia | lia | done |].
  destruct (index _ 0) as [e|first]; [discriminate|].
  destruct (len first =? _); congruence.
Qed.

(** X1: [reshape_model_outputs] returns exactly when the batch size is at
    least 1 and the list is non-empty with a length that is a multiple of
    the batch size. *)
Theorem reshape_returns_iff (outputs : list string) (B : Z) tr :
  (∃ groups, result (reshape_model_outputs outputs B) tr = inr groups)
  ↔ 1 ≤ B ∧ 1 ≤ len outputs ∧ len outputs `mod` B = 0.
Proof.
  unfold result. split.
  - intros [groups Hres].
    apply reshape_success_inv in Hres as (HB & Hk & HM & _).
    split; [done|]. split; [nia|].
    rewrite HM, Z.mul_comm. apply Z.mod_mul. lia.
  - intros (HB & HM & Hmod).
    assert (len outputs = B * (len outputs `div` B)) as Hexact.
    { rewrite (Z.div_mod (len outputs) B) at 1 by lia. lia. }
    exists (groups_of outputs (len outputs `div` B)).
    rewrite (reshape_exact outputs B (len outputs `div` B)); [done|lia|nia|done].
Qed.

(** Cutting the concatenation of equally long groups gives the groups
    back. *)
Lemma chunks_concat {A} (gs : list (list A)) (k : nat) :
  Forall (λ g, length g = k) gs →
  (λ j, take k (drop (j * k) (concat gs))) <$> seq 0 (length gs) = gs.
Proof.
  induction 1 as [|g gs Hg Hgs IH]; [done|].
  cbn [length seq concat]. rewrite fmap_cons. f_equal.
  - change (0 * k)%nat with 0%nat. rewrite drop_0. by apply take_app_length'.
  - rewrite <- fmap_S_seq, <- list_fmap_compose. rewrite <- IH at 2.
    apply list_fmap_ext. intros _ j _. cbn [compose].
    replace (S j * k)%nat with (length g + j * k)%nat by lia.
    by rewrite drop_app_add.
Qed.

Lemma length_concat_uniform {A} (gs : list (list A)) (k : nat) :
  Forall (λ g, length g = k) gs → length (concat gs) = (length gs * k)%nat.
Proof.
  induction 1 as [|g gs Hg Hgs IH]; [done|].
  simpl. rewrite length_app, IH. lia.
Qed.

(** Cutting the flattened groups with the width [k] gives the groups. *)
Lemma groups_of_concat (groups : list (list string)) (k : Z) :
  1 ≤ k → Forall (λ g, len g = k) groups →
  len (concat groups) = len groups * k ∧
  groups_of (concat groups) k = groups.
Proof.
  intros Hk Hall.
  assert (Forall (λ g, length g = Z.to_nat k) groups) as Hall'.
  { eapply Forall_impl; [exact Hall|]. unfold len. simpl. lia. }
  assert (len (concat groups) = len groups * k) as HM.
  { unfold len. rewrite (length_concat_uniform groups (Z.to_nat k)) by done. lia. }
  split; [done|]. unfold groups_of. rewrite HM.
  replace ((len groups * k + k - 1) `div` k) with (len groups).
  - unfold len. rewrite Nat2Z.id. by apply chunks_concat.
  - replace (len groups * k + k - 1) with (k - 1 + len groups * k) by lia.
    rewrite Z.div_add by lia. rewrite Z.div_small by lia. lia.
Qed.

Lemma reshape_single_run (outputs : list string) tr :
  outputs ≠ [] → (reshape_model_outputs outputs 1 tr).1 = inr [outputs].
Proof.
  intros Hne.
  assert (1 ≤ len outputs) as HM.
  { unfold len. destruct outputs; [done | simpl; lia]. }
  destruct (groups_of_concat [outputs] (len outputs)) as [_ Hg];
    [done | by constructor |].
  simpl in Hg. rewrite app_nil_r in Hg.
  rewrite (reshape_exact outputs 1 (len outputs)) by lia. simpl.
  by rewrite Hg.
Qed.

(** X2: the inverse round trip.  Flattening [B >= 1] groups that all have
    the same length [k >= 1] and reshaping with batch size [B] gives the
    groups back. *)
Theorem reshape_concat_roundtrip (groups : list (list string)) (k : Z) tr :
  1 ≤ len groups → 1 ≤ k → Forall (λ g, len g = k) groups →
  result (reshape_model_outputs (concat groups) (len groups)) tr = inr groups.
Proof.
  intros HB Hk Hall.
  destruct (groups_of_concat groups k Hk Hall) as [HM Hg].
  unfold result. rewrite (reshape_exact _ _ k) by done. simpl.
  by rewrite Hg.
Qed.

Lemma reshape_concat_roundtrip_witness :
  result (reshape_model_outputs (concat [["a"; "b"]; ["c"; "d"]; ["e"; "f"]])
            (len [["a"; "b"]; ["c"; "d"]; ["e"; "f"]])) []
  = inr [["a"; "b"]; ["c"; "d"]; ["e"; "f"]].
Proof.
  apply (reshape_concat_roundtrip [["a"; "b"]; ["c"; "d"]; ["e"; "f"]] 2 []);
    [unfold len; simpl; lia | lia | repeat constructor].
Defined.

(** X3: every exception of [reshape_model_outputs] is one of three: the
    division by a zero batch size, the zero step of [range] when
    [M // B = 0], or the count check with a count different from the batch
    size.  The indexing [outputs[0]] and the check of the first group's
    size never raise.  The message of the count check writes the batch size
    in decimal, and Python refuses to write an integer longer than a limit
    of digits, 4300 unless configured otherwise and never less than 640;
    that limit is not modelled, so the batch size is taken above
    [-10^640], where it cannot be reached.  (The other numbers written are
    counts of list elements.) *)
Theorem reshape_raises_only (outputs : list string) (B : Z) tr e :
  - 10 ^ 640 < B →
  result (reshape_model_outputs outputs B) tr = inl e →
  (B = 0 ∧ e = ZeroDivisionError "integer division or modulo by zero") ∨
  (B ≠ 0 ∧ len outputs `div` B = 0 ∧
   e = ValueError "range() arg 3 must not be zero") ∨
  (B ≠ 0 ∧ len outputs `div` B ≠ 0 ∧
   ∃ got, got ≠ B ∧ 0 ≤ got ∧ e = ValueError (msg_outputs got B)).
Proof.
  unfold result. intros _ Hres.
  destruct (Z.eq_dec B 0) as [->|HB].
  { rewrite reshape_zero_batch in Hres. simpl in Hres. left.
    split; congruence. }
  right.
  destruct (Z.lt_trichotomy (len outputs `div` B) 0) as [Hk|[Hk|Hk]].
  - rewrite reshape_neg_step in Hres by done. simpl in Hres. right.
    repeat split; [done | lia |]. exists 0. repeat split; [lia | lia | congruence].
  - rewrite reshape_zero_step in Hres by done. simpl in Hres. left.
    repeat split; [done | done | congruence].
  - rewrite reshape_pos_step in Hres by done. simpl in Hres. right.
    repeat split; [done | lia |].
    rewrite groups_of_length in Hres by done.
    set (count := (len outputs + len outputs `div` B - 1)
                    `div` (len outputs `div` B)) in *.
    destruct (Z.eqb_spec count B) as [Hcount|Hcount].
    + exfalso.
      destruct (count_eq_exact (len outputs) B) as [HBpos Hexact];
        auto using len_nonneg.
      pose proof (reshape_exact outputs B (len outputs `div` B) tr
                    ltac:(lia) ltac:(lia) Hexact) as Hok.
      rewrite reshape_pos_step in Hok by done. simpl in Hok.
      rewrite groups_of_length in Hok by done. fold count in Hok.
      rewrite Hcount, Z.eqb_refl in Hok.
      injection Hok as Hok. congruence.
    + exists count. repeat split; [done | | congruence].
      apply Z.div_pos; [pose proof (len_nonneg outputs)|]; lia.
Qed.

Lemma reshape_raises_only_witness :
  (3 = 0 ∧ ValueError (msg_outputs 4 3)
           = ZeroDivisionError "integer division or modulo by zero") ∨
  (3 ≠ 0 ∧ len ["a"; "b"; "c"; "d"; "e"; "f"; "g"] `div` 3 = 0 ∧
   ValueError (msg_outputs 4 3)
   = ValueError "range() arg 3 must not be zero") ∨
  (3 ≠ 0 ∧ len ["a"; "b"; "c"; "d"; "e"; "f"; "g"] `div` 3 ≠ 0 ∧
   ∃ got, got ≠ 3 ∧ 0 ≤ got ∧
          ValueError (msg_outputs 4 3) = ValueError (msg_outputs got 3)).
Proof.
  apply (reshape_raises_only ["a"; "b"; "c"; "d"; "e"; "f"; "g"] 3 []);
    reflexivity.
Defined.

(** X4: a length of at least [B] that is not a multiple of the batch
    size [B >= 1] is caught by the count check: the call raises the
    [ValueError] that reports the number of chunks, the ceiling of
    [M / (M // B)], which is more than [B], next to the expected [B]. *)
Theorem reshape_reports_count_mismatch (outputs : list string) (B : Z) tr :
  1 ≤ B → B ≤ len outputs → len outputs `mod` B ≠ 0 →
  result (reshape_model_outputs outputs B) tr
  = inl (ValueError
           (msg_outputs
              ((len outputs + len outputs `div` B - 1)
                 `div` (len outputs `div` B)) B)) ∧
  B < (len outputs + len outputs `div` B - 1) `div` (len outputs `div` B).
Proof.
  intros HB HM Hmod. set (k := len outputs `div` B).
  pose proof (Z.div_mod (len outputs) B ltac:(lia)) as Hdm.
  pose proof (Z.mod_pos_bound (len outputs) B ltac:(lia)) as Hr.
  fold k in Hdm.
  assert (0 < k) as Hk by nia.
  assert (B + 1 ≤ (len outputs + k - 1) `div` k) as Hgt.
  { apply Z.div_le_lower_bound; nia. }
  split; [|lia].
  unfold result. rewrite reshape_pos_step by (fold k; lia). fold k. simpl.
  rewrite groups_of_length by done.
  destruct (Z.eqb_spec ((len outputs + k - 1) `div` k) B) as [?|_]; [lia|].
  reflexivity.
Qed.

Lemma reshape_reports_count_mismatch_witness :
  result (reshape_model_outputs ["a"; "b"; "c"; "d"; "e"; "f"; "g"] 3) []
  = inl (ValueError
           (msg_outputs
              ((len ["a"; "b"; "c"; "d"; "e"; "f"; "g"]
                + len ["a"; "b"; "c"; "d"; "e"; "f"; "g"] `div` 3 - 1)
                 `div` (len ["a"; "b"; "c"; "d"; "e"; "f"; "g"] `div` 3)) 3)) ∧
  3 < (len ["a"; "b"; "c"; "d"; "e"; "f"; "g"]
       + len ["a"; "b"; "c"; "d"; "e"; "f"; "g"] `div` 3 - 1)
        `div` (len ["a"; "b"; "c"; "d"; "e"; "f"; "g"] `div` 3).
Proof.
  apply (reshape_reports_count_mismatch ["a"; "b"; "c"; "d"; "e"; "f"; "g"] 3 []);
    [lia | unfold len; simpl; lia | discriminate].
Defined.

(** X5: for a batch size [B >= 1] the record "number of return sequences >
    batch size" is logged exactly when the list has at least [2 * B]
    elements, and then once, whether or not the call goes on to raise;
    otherwise the stream is left as it was. *)
Theorem reshape_logs_iff (outputs : list string) (B : Z) tr :
  1 ≤ B →
  events (reshape_model_outputs outputs B) tr
  = if 2 * B <=? len outputs
    then tr ++ [LogInfo (NumberOfReturnSequences (len outputs) B)]
    else tr.
Proof.
  intros HB. unfold events.
  pose proof (len_nonneg outputs) as HM.
  pose proof (Z.div_mod (len outputs) B ltac:(lia)) as Hdm.
  pose proof (Z.mod_pos_bound (len outputs) B ltac:(lia)) as Hr.
  destruct (Z.lt_trichotomy (len outputs `div` B) 0) as [Hk|[Hk|Hk]].
  - nia.
  - rewrite reshape_zero_step by (done || lia). simpl.
    destruct (Z.leb_spec (2 * B) (len outputs)); [nia | done].
  - rewrite reshape_pos_step by (done || lia). simpl. unfold reshape_events.
    destruct (Z.ltb_spec 1 (len outputs `div` B));
      destruct (Z.leb_spec (2 * B) (len outputs)); try done; nia.
Qed.

Lemma reshape_logs_iff_witness :
  events (reshape_model_outputs ["a"; "b"; "c"; "d"; "e"] 2) []
  = if 2 * 2 <=? len ["a"; "b"; "c"; "d"; "e"]
    then [] ++ [LogInfo (NumberOfReturnSequences (len ["a"; "b"; "c"; "d"; "e"]) 2)]
    else [].
Proof. apply (reshape_logs_iff ["a"; "b"; "c"; "d"; "e"] 2 []). lia. Defined.

(** ** More on [generate_from_model] *)

(** X6: when [generate_from_model] returns, the three backend calls have
    succeeded, there are as many groups as the tokenized batch has rows,
    all groups have the same length, and the groups in order are the
    decoded strings. *)
Theorem generate_returns_batch backend args inputs tr groups :
  result (generate_from_model backend args inputs) tr = inr groups →
  ∃ input_ids model_outputs decoded,
    tokenizer_call backend inputs "pt" true = inr input_ids ∧
    model_generate backend (generate_kwargs args input_ids)
      = inr model_outputs ∧
    tokenizer_batch_decode backend model_outputs true = inr decoded ∧
    len groups = (shape input_ids).1 ∧
    Forall (λ g, len g = len decoded `div` (shape input_ids).1) groups ∧
    concat groups = decoded.
Proof.
  unfold generate_from_model. py_simpl.
  destruct (tokenizer_call backend inputs "pt" true) as [e|input_ids] eqn:Htok;
    [discriminate|]. simpl.
  destruct (model_generate backend _) as [e|model_outputs] eqn:Hgen;
    [discriminate|]. simpl.
  destruct (tokenizer_batch_decode backend model_outputs true)
    as [e|decoded] eqn:Hdec; [discriminate|]. simpl.
  intros Hres. apply reshape_success_inv in Hres as (HB & Hk & HM & ->).
  destruct (groups_of_exact decoded (len decoded `div` (shape input_ids).1)
              (shape input_ids).1) as (Hlen & Hall & Hcat & _); [lia..|].
  by exists input_ids, model_outputs, decoded.
Qed.

Lemma generate_returns_batch_witness :
  ∃ input_ids model_outputs decoded,
    tokenizer_call stub_backend ["a"; "b"; "c"] "pt" true = inr input_ids ∧
    model_generate stub_backend (generate_kwargs stub_args input_ids)
      = inr model_outputs ∧
    tokenizer_batch_decode stub_backend model_outputs true = inr decoded ∧
    len [["a1"; "a2"]; ["b1"; "b2"]; ["c1"; "c2"]] = (shape input_ids).1 ∧
    Forall (λ g, len g = len decoded `div` (shape input_ids).1)
      [["a1"; "a2"]; ["b1"; "b2"]; ["c1"; "c2"]] ∧
    concat [["a1"; "a2"]; ["b1"; "b2"]; ["c1"; "c2"]] = decoded.
Proof.
  apply (generate_returns_batch stub_backend stub_args ["a"; "b"; "c"] []).
  reflexivity.
Defined.

(** The arguments of [generate] do not mention an unread field. *)
Lemma generate_kwargs_unread args kw input_ids :
  unread kw = true →
  generate_kwargs (assign args kw) input_ids = generate_kwargs args input_ids.
Proof. by destruct args, kw. Qed.

Lemma max_memory_unread args kw :
  unread kw = true → max_memory (assign args kw) = max_memory args.
Proof. by destruct args, kw. Qed.

(** The planner reads the configuration through [max_memory] only. *)
Lemma set_max_memory_ext args1 args2 cuda tr :
  max_memory args1 = max_memory args2 →
  set_max_memory args1 cuda tr = set_max_memory args2 cuda tr.
Proof.
  intros H. rewrite !set_max_memory_run.
  unfold plan_log, plan_result, plans. rewrite H. reflexivity.
Qed.

(** X7: the seed, the configured batch size, the length penalty,
    [use_cuda], [verbose] and the data and prompt fields are never read:
    changing any of them changes neither what the planner returns and
    logs nor what [generate_from_model] returns, logs and passes to the
    backend. *)
Theorem unread_fields_have_no_effect args kw :
  unread kw = true →
  (∀ cuda tr,
     set_max_memory (assign args kw) cuda tr = set_max_memory args cuda tr) ∧
  (∀ backend inputs tr,
     generate_from_model backend (assign args kw) inputs tr
     = generate_from_model backend args inputs tr).
Proof.
  intros Hkw. split.
  - intros cuda tr. by apply set_max_memory_ext, max_memory_unread.
  - intros backend inputs tr. unfold generate_from_model. py_simpl.
    destruct (tokenizer_call backend inputs "pt" true) as [e|input_ids];
      [done|]. simpl.
    by rewrite generate_kwargs_unread.
Qed.

Lemma unread_fields_have_no_effect_witness :
  (∀ cuda tr,
     set_max_memory (assign (defaults "model") (kw_seed 7)) cuda tr
     = set_max_memory (defaults "model") cuda tr) ∧
  (∀ backend inputs tr,
     generate_from_model backend (assign (defaults "model") (kw_seed 7)) inputs tr
     = generate_from_model backend (defaults "model") inputs tr).
Proof.
  apply (unread_fields_have_no_effect (defaults "model") (kw_seed 7)).
  reflexivity.
Defined.

(** ** More on [set_max_memory] *)

Lemma plan_result_not_none args cuda :
  plans args cuda = true → plan_result args cuda ≠ inr None.
Proof.
  intros Hplans. unfold plan_result. rewrite Hplans.
  destruct (Float.truediv_GiB _) as [e|t]; [done|].
  destruct (range _ _ _) as [e|devices]; [done|].
  by destruct (collect _).
Qed.

(** X8: the planner returns [None] exactly when the memory fraction is
    zero, or equal to 1.0, or there is at most one device; in every other
    case it returns a budget map or raises. *)
Theorem planner_none_iff args cuda tr :
  result (set_max_memory args cuda) tr = inr None
  ↔ Float.eqb (max_memory args) Float.zero = true
    ∨ Float.eqb (max_memory args) Float.one = true
    ∨ device_count cuda ≤ 1.
Proof.
  unfold result. rewrite set_max_memory_run. simpl. split.
  - intros Hres. destruct (plans args cuda) eqn:Hplans.
    { by apply plan_result_not_none in Hres. }
    unfold plans, Float.truth in Hplans.
    destruct (Float.eqb (max_memory args) Float.zero); [auto|].
    destruct (Float.eqb (max_memory args) Float.one); [auto|].
    simpl in Hplans. right. right. lia.
  - intros H. unfold plan_result.
    assert (plans args cuda = false) as ->; [|done].
    unfold plans, Float.truth. destruct H as [->|[->|HN]]; [done| |].
    + by rewrite andb_false_r.
    + destruct (Z.ltb_spec 1 (device_count cuda)); [lia|].
      by rewrite andb_false_r.
Qed.

(** X9: what the planner logs goes with what it returns.  Returning a map,
    it has logged the start and then that very map; returning [None], it
    has logged nothing; raising, it has logged the start only. *)
Theorem planner_log_matches_result args cuda tr :
  match result (set_max_memory args cuda) tr with
  | inr (Some m) =>
      events (set_max_memory args cuda) tr
      = tr ++ [LogInfo InferingMaxMemory; LogInfo (SetMaximumMemory m)]
  | inr None => events (set_max_memory args cuda) tr = tr
  | inl _ =>
      events (set_max_memory args cuda) tr = tr ++ [LogInfo InferingMaxMemory]
  end.
Proof.
  unfold result, events. rewrite set_max_memory_run. simpl.
  unfold plan_log. destruct (plans args cuda) eqn:Hplans.
  - pose proof (plan_result_not_none args cuda Hplans).
    by destruct (plan_result args cuda) as [e|[m|]].
  - unfold plan_result. rewrite Hplans. by rewrite app_nil_r.
Qed.






(** X11: with a backend that keeps its contract, [generate_from_model]
    returns.  If the tokenized batch has [B >= 1] rows and the decoder
    gives [B * n] strings with [n >= 1], the result has [B] groups of [n]
    strings each, in the decoder's order. *)
Theorem generate_returns_on_conforming_backend
    backend args inputs tr input_ids model_outputs decoded (n : Z) :
  tokenizer_call backend inputs "pt" true = inr input_ids →
  model_generate backend (generate_kwargs args input_ids) = inr model_outputs →
  tokenizer_batch_decode backend model_outputs true = inr decoded →
  1 ≤ (shape input_ids).1 → 1 ≤ n →
  len decoded = (shape input_ids).1 * n →
  ∃ groups,
    result (generate_from_model backend args inputs) tr = inr groups ∧
    len groups = (shape input_ids).1 ∧
    Forall (λ g, len g = n) groups ∧
    concat groups = decoded.
Proof.
  intros Htok Hgen Hdec HB Hn HM.
  destruct (groups_of_exact decoded n (shape input_ids).1)
    as (Hlen & Hall & Hcat & _); [lia..|].
  exists (groups_of decoded n). split; [|done].
  unfold generate_from_model. py_simpl.
  rewrite Htok. simpl. rewrite Hgen. simpl. rewrite Hdec. simpl.
  by rewrite (reshape_exact decoded _ n).
Qed.

Lemma generate_returns_on_conforming_backend_witness :
  ∃ groups,
    result (generate_from_model stub_backend stub_args ["a"; "b"; "c"]) []
    = inr groups ∧
    len groups = (shape stub_input_ids).1 ∧
    Forall (λ g, len g = 2) groups ∧
    concat groups = ["a1"; "a2"; "b1"; "b2"; "c1"; "c2"].
Proof.
  apply (generate_returns_on_conforming_backend stub_backend stub_args
           ["a"; "b"; "c"] [] stub_input_ids stub_outputs
           ["a1"; "a2"; "b1"; "b2"; "c1"; "c2"] 2);
    [reflexivity | reflexivity | reflexivity | simpl; lia | lia | reflexivity].
Defined.

(** ** [LLM.__init__] and the script *)

Ltac sys_simpl :=
  unfold Sys.result, Sys.events, Sys.bind, Sys.lift, Sys.ret, Sys.emit in *;
  simpl in *.

(** The methods only append to the stream and do not read it. *)
Lemma generate_from_model_appends backend args inputs tr :
  generate_from_model backend args inputs tr
  = ((generate_from_model backend args inputs []).1,
     tr ++ (generate_from_model backend args inputs []).2).
Proof.
  unfold generate_from_model. py_simpl.
  destruct (tokenizer_call backend inputs "pt" true) as [e|input_ids]; [done|].
  simpl. destruct (model_generate backend _) as [e|model_outputs]; simpl.
  { by rewrite <- app_assoc. }
  destruct (tokenizer_batch_decode backend model_outputs true) as [e|decoded];
    simpl.
  { by rewrite <- !app_assoc. }
  set (B := (shape input_ids).1).
  destruct (Z.eq_dec B 0) as [->|HB].
  { rewrite !reshape_zero_batch. simpl. by rewrite <- !app_assoc. }
  destruct (Z.lt_trichotomy (len decoded `div` B) 0) as [Hk|[Hk|Hk]].
  - rewrite !reshape_neg_step by done. simpl. by rewrite <- !app_assoc.
  - rewrite !reshape_zero_step by done. simpl. by rewrite <- !app_assoc.
  - rewrite !reshape_pos_step by done. simpl. f_equal.
    unfold reshape_events. destruct (1 <? _); by rewrite <- ?app_assoc.
Qed.

Lemma method_set_max_memory args cuda tr :
  Sys.method (set_max_memory args cuda) tr
  = (plan_result args cuda, tr ++ (Method <$> plan_log args cuda)).
Proof. unfold Sys.method. by rewrite set_max_memory_run. Qed.

Lemma LLM_init_run hub cuda args tr :
  LLM_init hub cuda args tr
  = (init_result hub cuda args, tr ++ init_events hub cuda args).
Proof.
  unfold LLM_init, init_result, init_events. sys_simpl.
  rewrite method_set_max_memory.
  destruct (plan_result args cuda) as [e|plan]; [by rewrite app_nil_r|].
  destruct (AutoModelForCausalLM_from_pretrained hub _) as [e|model]; simpl.
  { by rewrite <- app_assoc. }
  destruct (AutoTokenizer_from_pretrained hub _ _) as [e|tokenizer]; simpl;
    by rewrite <- !app_assoc.
Qed.

(** X12: [__init__] hands the planner's answer to the model loader.  The
    loader is called only if [set_max_memory] returned, its [max_memory]
    argument is what [set_max_memory] returned, and its dtype is
    [float16]; if the planner raised, [__init__] raises the same exception
    and loads neither the model nor the tokenizer. *)
Theorem init_loads_with_plan hub cuda args tr :
  ∃ new,
    Sys.events (LLM_init hub cuda args) tr = tr ++ new ∧
    (∀ kwargs, CallModelFromPretrained kwargs ∈ new →
       result (set_max_memory args cuda) [] = inr (p_max_memory kwargs) ∧
       kwargs = from_pretrained_kwargs args (p_max_memory kwargs) ∧
       p_torch_dtype kwargs = float16) ∧
    (∀ plan, result (set_max_memory args cuda) [] = inr plan →
       CallModelFromPretrained (from_pretrained_kwargs args plan) ∈ new) ∧
    (∀ e, result (set_max_memory args cuda) [] = inl e →
       Sys.result (LLM_init hub cuda args) tr = inl e ∧
       ∀ ev, ev ∈ new → ∃ m, ev = Method m).
Proof.
  exists (init_events hub cuda args).
  unfold Sys.events, Sys.result, result.
  rewrite LLM_init_run, set_max_memory_run. simpl.
  split; [done|]. unfold init_events, init_result.
  destruct (plan_result args cuda) as [e|plan].
  - rewrite app_nil_r. split; [|split].
    + intros kwargs Hin. apply list_elem_of_fmap in Hin as (? & [=] & _).
    + intros plan [=].
    + intros e' [= <-]. split; [done|]. intros ev Hin.
      apply list_elem_of_fmap in Hin as (m & -> & _). eauto.
  - split; [|split].
    + intros kwargs Hin. apply elem_of_app in Hin as [Hin|Hin].
      { apply list_elem_of_fmap in Hin as (? & [=] & _). }
      apply elem_of_cons in Hin as [[= ->]|Hin]; [done|].
      destruct (AutoModelForCausalLM_from_pretrained hub _);
        [by apply elem_of_nil in Hin|].
      repeat (apply elem_of_cons in Hin as [[=]|Hin]).
      by apply elem_of_nil in Hin.
    + intros plan' [= <-]. apply elem_of_app. right. apply elem_of_cons.
      by left.
    + intros e' [=].
Qed.

(** X13: [__init__] loads the tokenizer last and with left padding.  The
    tokenizer loader is called only after the model loader has returned a
    model, under the model's name and with [padding_side='left']; and an
    [LLM] that [__init__] returns holds the given arguments, the model the
    loader returned for the planner's answer, and that tokenizer. *)
Theorem init_loads_tokenizer_last hub cuda args tr :
  ∃ new,
    Sys.events (LLM_init hub cuda args) tr = tr ++ new ∧
    (∀ name padding_side,
       CallTokenizerFromPretrained name padding_side ∈ new →
       name = model_name_or_path args ∧ padding_side = "left" ∧
       ∃ kwargs model,
         CallModelFromPretrained kwargs ∈ new ∧
         AutoModelForCausalLM_from_pretrained hub kwargs = inr model) ∧
    (∀ self,
       Sys.result (LLM_init hub cuda args) tr = inr self →
       llm_args self = args ∧
       ∃ plan,
         result (set_max_memory args cuda) [] = inr plan ∧
         AutoModelForCausalLM_from_pretrained hub
           (from_pretrained_kwargs args plan) = inr (llm_model self) ∧
         AutoTokenizer_from_pretrained hub (model_name_or_path args) "left"
         = inr (llm_tokenizer self)).
Proof.
  exists (init_events hub cuda args).
  unfold Sys.events, Sys.result, result.
  rewrite LLM_init_run, set_max_memory_run. simpl.
  split; [done|]. unfold init_events, init_result.
  destruct (plan_result args cuda) as [e|plan].
  - rewrite app_nil_r. split.
    + intros name side Hin. apply list_elem_of_fmap in Hin as (? & [=] & _).
    + intros self [=].
  - destruct (AutoModelForCausalLM_from_pretrained hub _) as [e|model] eqn:Hm.
    + split; [|intros self [=]].
      intros name side Hin. apply elem_of_app in Hin as [Hin|Hin].
      { apply list_elem_of_fmap in Hin as (? & [=] & _). }
      repeat (apply elem_of_cons in Hin as [[=]|Hin]).
      by apply elem_of_nil in Hin.
    + split.
      * intros name side Hin. apply elem_of_app in Hin as [Hin|Hin].
        { apply list_elem_of_fmap in Hin as (? & [=] & _). }
        apply elem_of_cons in Hin as [[=]|Hin].
        apply elem_of_cons in Hin as [[=]|Hin].
        apply elem_of_cons in Hin as [[=]|Hin].
        apply elem_of_cons in Hin as [[= -> ->]|Hin];
          [|by apply elem_of_nil in Hin].
        repeat split. exists (from_pretrained_kwargs args plan), model.
        split; [|done]. apply elem_of_app. right. apply elem_of_cons. by left.
      * destruct (AutoTokenizer_from_pretrained hub _ _) as [e|tok] eqn:Ht;
          intros self [= <-]. simpl. eauto.
Qed.

(** The run of the script. *)
Lemma main_run hub cuda args tr :
  main hub cuda args tr
  = match init_result hub cuda args with
    | inl e => (inl e, tr ++ init_events hub cuda args)
    | inr self =>
        let run := generate_from_model (backend_of self) (llm_args self)
                     ["This is an awesome prompt :)"] [] in
        match run.1 with
        | inl e => (inl e, tr ++ init_events hub cuda args ++ (Method <$> run.2))
        | inr value =>
            (inr tt, tr ++ init_events hub cuda args ++ (Method <$> run.2)
                        ++ [Print value])
        end
    end.
Proof.
  unfold main, LLM_generate_from_model, Sys.method. sys_simpl.
  rewrite LLM_init_run.
  destruct (init_result hub cuda args) as [e|self]; [done|].
  destruct (generate_from_model _ _ _ []) as [[e|value] evs]; simpl;
    by rewrite <- !app_assoc.
Qed.

Lemma init_events_no_print hub cuda args v :
  Print v ∉ init_events hub cuda args.
Proof.
  unfold init_events. intros Hin. apply elem_of_app in Hin as [Hin|Hin].
  { apply list_elem_of_fmap in Hin as (? & [=] & _). }
  destruct (plan_result args cuda); [by apply elem_of_nil in Hin|].
  apply elem_of_cons in Hin as [[=]|Hin].
  destruct (AutoModelForCausalLM_from_pretrained hub _);
    [by apply elem_of_nil in Hin|].
  repeat (apply elem_of_cons in Hin as [[=]|Hin]).
  by apply elem_of_nil in Hin.
Qed.

(** X14: the script end to end.  If the planner returns, both loaders
    return, the tokenizer gives the one prompt one row, and generation and
    decoding return a non-empty list of strings, the script ends normally
    and the last thing it does is print one group that holds all decoded
    strings in order. *)
Theorem main_prints_one_group
    hub cuda args tr plan model tokenizer input_ids model_outputs decoded :
  result (set_max_memory args cuda) [] = inr plan →
  AutoModelForCausalLM_from_pretrained hub (from_pretrained_kwargs args plan)
  = inr model →
  AutoTokenizer_from_pretrained hub (model_name_or_path args) "left"
  = inr tokenizer →
  encode_batch tokenizer ["This is an awesome prompt :)"] "pt" true
  = inr input_ids →
  (shape input_ids).1 = 1 →
  generate model (generate_kwargs args input_ids) = inr model_outputs →
  batch_decode tokenizer model_outputs true = inr decoded →
  decoded ≠ [] →
  Sys.result (main hub cuda args) tr = inr tt ∧
  ∃ before,
    Sys.events (main hub cuda args) tr = tr ++ before ++ [Print [decoded]] ∧
    ∀ v, Print v ∉ before.
Proof.
  unfold result. rewrite set_max_memory_run. simpl.
  intros Hplan Hmodel Htok Henc HB Hgen Hdec Hne.
  unfold Sys.result, Sys.events. rewrite main_run.
  unfold init_result. rewrite Hplan, Hmodel, Htok. cbn zeta.
  set (self := {| llm_args := args; llm_model := model;
                  llm_tokenizer := tokenizer |}).
  assert ((generate_from_model (backend_of self) (llm_args self)
             ["This is an awesome prompt :)"] []).1 = inr [decoded]) as Hrun.
  { unfold generate_from_model. py_simpl.
    rewrite Henc. simpl. rewrite Hgen. simpl. rewrite Hdec. simpl.
    rewrite HB. by apply reshape_single_run. }
  rewrite Hrun. simpl. split; [done|].
  exists (init_events hub cuda args
          ++ (Method <$> (generate_from_model (backend_of self) args
                            ["This is an awesome prompt :)"] []).2)).
  split; [by rewrite <- app_assoc|].
  intros v Hin. apply elem_of_app in Hin as [Hin|Hin].
  - by apply init_events_no_print in Hin.
  - apply list_elem_of_fmap in Hin as (? & [=] & _).
Qed.

Lemma main_prints_one_group_witness :
  Sys.result (main echo_hub cuda_2x40 (defaults "model")) [] = inr tt ∧
  ∃ before,
    Sys.events (main echo_hub cuda_2x40 (defaults "model")) []
    = [] ++ before ++ [Print [["first"; "second"]]] ∧
    ∀ v, Print v ∉ before.
Proof.
  apply (main_prints_one_group echo_hub cuda_2x40 (defaults "model") [] None
           stub_model echo_tokenizer
           {| shape := (1, 1); ids := [[0]] |} stub_outputs ["first"; "second"]);
    try reflexivity. discriminate.
Defined.

(** X15: the script prints only when everything before has succeeded: if it
    ends with an exception, from the planner, a loader, the backend or the
    reshaping, nothing has been printed. *)
Theorem main_failure_prints_nothing hub cuda args tr e :
  Sys.result (main hub cuda args) tr = inl e →
  ∃ new, Sys.events (main hub cuda args) tr = tr ++ new ∧
         ∀ v, Print v ∉ new.
Proof.
  unfold Sys.result, Sys.events. rewrite main_run.
  destruct (init_result hub cuda args) as [e'|self]; simpl.
  { intros _. eexists. split; [done|]. apply init_events_no_print. }
  destruct (generate_from_model _ _ _ []) as [[e'|value] evs]; simpl;
    [|discriminate].
  intros _. eexists. split; [done|]. intros v Hin.
  apply elem_of_app in Hin as [Hin|Hin].
  - by apply init_events_no_print in Hin.
  - apply list_elem_of_fmap in Hin as (? & [=] & _).
Qed.

Lemma main_failure_prints_nothing_witness :
  ∃ new,
    Sys.events (main echo_hub cuda_2x40
                  (assign (defaults "model") (kw_max_memory S754_nan))) []
    = [] ++ new ∧
    ∀ v, Print v ∉ new.
Proof.
  apply (main_failure_prints_nothing echo_hub cuda_2x40
           (assign (defaults "model") (kw_max_memory S754_nan)) []
           (ValueError "cannot convert float NaN to integer")).
  reflexivity.
Defined.

(** The loader's arguments do not mention an unread field. *)
Lemma init_unread hub cuda args kw :
  unread kw = true →
  init_events hub cuda (assign args kw) = init_events hub cuda args ∧
  match init_result hub cuda (assign args kw), init_result hub cuda args with
  | inl e1, inl e2 => e1 = e2
  | inr s1, inr s2 =>
      llm_args s1 = assign args kw ∧ llm_args s2 = args ∧
      llm_model s1 = llm_model s2 ∧ llm_tokenizer s1 = llm_tokenizer s2
  | _, _ => False
  end.
Proof.
  intros Hkw.
  assert (plan_result (assign args kw) cuda = plan_result args cuda) as Hp.
  { pose proof (set_max_memory_ext (assign args kw) args cuda []
                  (max_memory_unread args kw Hkw)) as H.
    rewrite !set_max_memory_run in H. congruence. }
  assert (plan_log (assign args kw) cuda = plan_log args cuda) as Hl.
  { pose proof (set_max_memory_ext (assign args kw) args cuda []
                  (max_memory_unread args kw Hkw)) as H.
    rewrite !set_max_memory_run in H. simpl in H. congruence. }
  assert (∀ plan, from_pretrained_kwargs (assign args kw) plan
                  = from_pretrained_kwargs args plan) as Hk.
  { intros plan. by destruct args, kw. }
  assert (model_name_or_path (assign args kw) = model_name_or_path args) as Hn.
  { by destruct args, kw. }
  unfold init_events, init_result. rewrite Hp, Hl, Hn.
  destruct (plan_result args cuda) as [e|plan]; [done|]. rewrite Hk.
  destruct (AutoModelForCausalLM_from_pretrained hub _) as [e|model]; [done|].
  by destruct (AutoTokenizer_from_pretrained hub _ _).
Qed.

(** X16: the whole script ignores the unread fields: with another seed,
    configured batch size, length penalty, [use_cuda], [verbose] or data
    and prompt field it makes the same calls, logs the same records,
    prints the same value and ends the same way. *)
Theorem main_ignores_unread_fields hub cuda args kw tr :
  unread kw = true →
  main hub cuda (assign args kw) tr = main hub cuda args tr.
Proof.
  intros Hkw. rewrite !main_run.
  destruct (init_unread hub cuda args kw Hkw) as [-> Hres].
  destruct (init_result hub cuda (assign args kw)) as [e1|s1],
    (init_result hub cuda args) as [e2|s2]; try done.
  { by subst. }
  destruct Hres as (Ha1 & Ha2 & Hm & Ht). cbn zeta.
  assert (generate_from_model (backend_of s1) (llm_args s1)
            ["This is an awesome prompt :)"] []
          = generate_from_model (backend_of s2) (llm_args s2)
              ["This is an awesome prompt :)"] []) as ->; [|done].
  rewrite Ha1, Ha2. unfold backend_of. rewrite Hm, Ht.
  unfold generate_from_model. py_simpl.
  destruct (encode_batch _ _ _ _) as [e|input_ids]; [done|]. simpl.
  by rewrite generate_kwargs_unread.
Qed.

Lemma main_ignores_unread_fields_witness :
  main echo_hub cuda_2x40 (assign (defaults "model") (kw_seed 7)) []
  = main echo_hub cuda_2x40 (defaults "model") [].
Proof.
  apply (main_ignores_unread_fields echo_hub cuda_2x40 (defaults "model")
           (kw_seed 7) []).
  reflexivity.
Defined.

(** ** Rounding never passes a float above *)

Lemma Zdigits2_log2 (m : Z) : 0 < m → Zdigits2 m = Z.log2 m + 1.
Proof. destruct m as [|p|p]; try lia. intros _. apply digits2_pos_log2. Qed.

Lemma Zdigits2_nonneg (m : Z) : 0 ≤ Zdigits2 m.
Proof. destruct m; simpl; lia. Qed.

Lemma Zdigits2_mono (a b : Z) : 0 ≤ a ≤ b → Zdigits2 a ≤ Zdigits2 b.
Proof.
  intros [Ha Hab]. destruct (Z.eq_dec a 0) as [->|Hne].
  { apply Zdigits2_nonneg. }
  rewrite !Zdigits2_log2 by lia. pose proof (Z.log2_le_mono a b Hab). lia.
Qed.

(** Dropping [n] low bits of a number of more than [n] bits. *)
Lemma Zdigits2_div_pow2 (m n : Z) :
  0 < m → 0 ≤ n < Zdigits2 m → Zdigits2 (m `div` 2 ^ n) = Zdigits2 m - n.
Proof.
  intros Hm Hn. rewrite Zdigits2_log2 in Hn by done.
  assert (2 ^ n ≤ m) as Hle by (apply Z.log2_le_pow2; lia).
  assert (0 < m `div` 2 ^ n) as Hpos.
  { apply Z.div_str_pos. split; [apply Z.pow_pos_nonneg; lia | done]. }
  rewrite !Zdigits2_log2 by done.
  rewrite <- Z.shiftr_div_pow2, Z.log2_shiftr by lia. lia.
Qed.

Section Steps.

Variables prec emax : Z.

(** The two shifts of [binary_round_aux], with the rounded mantissa [m2]
    between them. *)
Lemma binary_round_aux_steps s (m : positive) e s' m' e' :
  binary_round_aux prec emax s (Z.pos m) e loc_Exact = S754_finite s' m' e' →
  ∃ m2 : Z,
    let n0 := fexp prec emax (Z.pos (digits2_pos m) + e) - e in
    let e1 := e + Z.max 0 n0 in
    let n1 := fexp prec emax (Zdigits2 m2 + e1) - e1 in
    (n0 ≤ 0 ∧ m2 = Z.pos m
     ∨ 0 < n0 ∧ Z.pos m `div` 2 ^ n0 ≤ m2 ≤ Z.pos m `div` 2 ^ n0 + 1) ∧
    Z.pos m' = m2 `div` 2 ^ Z.max 0 n1 ∧
    e' = e1 + Z.max 0 n1.
Proof.
  unfold binary_round_aux, shr_fexp. simpl Zdigits2. simpl shr_record_of_loc.
  set (n0 := fexp prec emax (Z.pos (digits2_pos m) + e) - e).
  destruct (shr _ e n0) as [mrs1 e1] eqn:Hshr1.
  apply shr_spec in Hshr1 as (He1 & Hm1 & Hid1); [|simpl; lia].
  simpl in Hm1.
  set (m2 := round_nearest_even (shr_m mrs1) (loc_of_shr_record mrs1)).
  pose proof (round_nearest_even_bounds (shr_m mrs1) (loc_of_shr_record mrs1))
    as Hm2. fold m2 in Hm2.
  assert (0 ≤ shr_m mrs1) as Hm1pos.
  { rewrite Hm1. apply Z.div_pos; lia. }
  set (n1 := fexp prec emax (Zdigits2 m2 + e1) - e1).
  destruct (shr _ e1 n1) as [mrs2 e2] eqn:Hshr2.
  apply shr_spec in Hshr2 as (He2 & Hm3 & _).
  2:{ destruct m2; simpl; lia. }
  cbn [shr_record_of_loc shr_m] in Hm3.
  destruct (shr_m mrs2) as [|m3|] eqn:Hm3'; try discriminate.
  destruct (e2 <=? emax - prec); intros [= <- <- <-].
  exists m2. cbn zeta. fold n0. rewrite <- He1. fold n1.
  split; [|split; [done | lia]].
  destruct (Z.le_gt_cases n0 0) as [Hn0|Hn0].
  - left. split; [done|]. subst m2. by rewrite (Hid1 Hn0).
  - right. split; [lia|]. rewrite Z.max_r in Hm1 by lia. lia.
Qed.

End Steps.

Section Canonical.

Variables prec emax : Z.
Hypothesis prec_pos : 0 < prec.

(** Rounding a mantissa that is not too short gives a canonical float. *)
Lemma binary_round_aux_canonical s (m : positive) e s' m' e' :
  e ≤ fexp prec emax (Z.pos (digits2_pos m) + e) →
  binary_round_aux prec emax s (Z.pos m) e loc_Exact = S754_finite s' m' e' →
  canonical_mantissa prec emax m' e' = true.
Proof.
  intros Hshort Hround.
  apply binary_round_aux_steps in Hround as (m2 & Hm2 & Hm' & He').
  cbn zeta in *. unfold canonical_mantissa. apply Z.eqb_eq.
  set (d := Z.pos (digits2_pos m)) in *.
  set (n0 := fexp prec emax (d + e) - e) in *.
  set (e1 := e + Z.max 0 n0) in *.
  set (n1 := fexp prec emax (Zdigits2 m2 + e1) - e1) in *.
  assert (0 < m2) as Hm2pos.
  { destruct (Z.lt_ge_cases 0 m2) as [|Hle]; [done|]. exfalso.
    assert (m2 `div` 2 ^ Z.max 0 n1 ≤ 0); [|lia].
    apply Z.div_le_upper_bound; [apply Z.pow_pos_nonneg|]; lia. }
  assert (0 ≤ n1 < Zdigits2 m2 →
          Z.pos (digits2_pos m') = Zdigits2 m2 - n1) as Hshift.
  { intros Hn1. change (Z.pos (digits2_pos m')) with (Zdigits2 (Z.pos m')).
    rewrite Hm', Z.max_r by lia. by apply Zdigits2_div_pow2. }
  assert (n1 ≤ 0 → Z.pos (digits2_pos m') = Zdigits2 m2) as Hsame.
  { intros Hn1. change (Z.pos (digits2_pos m')) with (Zdigits2 (Z.pos m')).
    rewrite Hm', Z.max_l by lia. by rewrite Z.div_1_r. }
  assert (0 < n0 < d → d - n0 ≤ Zdigits2 m2) as Hkeep.
  { intros Hn0. destruct Hm2 as [[? _]|[_ Hm2]]; [lia|].
    pose proof (Zdigits2_div_pow2 (Z.pos m) n0 ltac:(lia)) as Hdiv.
    change (Zdigits2 (Z.pos m)) with d in Hdiv. rewrite <- Hdiv by lia.
    apply Zdigits2_mono. split; [|lia]. apply Z.div_pos; [lia|].
    apply Z.pow_pos_nonneg; lia. }
  assert (n0 ≤ 0 → Zdigits2 m2 = d) as Hexact.
  { intros Hn0. destruct Hm2 as [[_ ->]|[? _]]; [done | lia]. }
  pose proof (Zdigits2_nonneg m2) as Hd2.
  unfold fexp in *. lia.
Qed.

(** [shl_align] keeps the value and lengthens the mantissa as needed. *)
Lemma iter_xO_pow2 (m d : positive) :
  Z.pos (Pos.iter xO m d) = Z.pos m * 2 ^ Z.pos d.
Proof.
  apply (Pos.iter_ind _ xO m (λ d a, Z.pos a = Z.pos m * 2 ^ Z.pos d)).
  - lia.
  - intros p a Ha. rewrite Pos2Z.inj_xO, Ha, Pos2Z.inj_succ.
    rewrite Z.pow_succ_r by lia. ring.
Qed.

Lemma shl_align_short (m : positive) e mz ez :
  shl_align m e (fexp prec emax (Z.pos (digits2_pos m) + e)) = (mz, ez) →
  ez ≤ fexp prec emax (Z.pos (digits2_pos mz) + ez).
Proof.
  unfold shl_align.
  destruct (fexp prec emax (Z.pos (digits2_pos m) + e) - e) as [|p|p] eqn:Hd;
    intros [= <- <-]; try lia.
  assert (Z.pos (digits2_pos (Pos.iter xO m p))
          = Z.pos (digits2_pos m) + Z.pos p) as ->.
  { rewrite !digits2_pos_log2, iter_xO_pow2.
    rewrite Z.log2_mul_pow2 by lia. lia. }
  set (F := fexp prec emax (Z.pos (digits2_pos m) + e)) in *.
  replace (Z.pos (digits2_pos m) + Z.pos p + F)
    with (Z.pos (digits2_pos m) + e) by lia.
  fold F. lia.
Qed.

Lemma binary_round_canonical s (m : positive) e s' m' e' :
  binary_round prec emax s m e = S754_finite s' m' e' →
  canonical_mantissa prec emax m' e' = true.
Proof.
  unfold binary_round.
  destruct (shl_align m e _) as [mz ez] eqn:Halign.
  apply shl_align_short in Halign. by apply binary_round_aux_canonical.
Qed.

End Canonical.

Section Below.

Local Open Scope Q_scope.

Lemma value_lt_inv m1 m2 e : value m1 e < value m2 e → (m1 < m2)%Z.
Proof.
  unfold value. intros H. apply Qmult_lt_r in H; [|apply pow2_pos].
  by rewrite Zlt_Qlt.
Qed.

(** The magnitude of a positive value: its number of bits plus its
    exponent. *)
Lemma value_magnitude (m : positive) e :
  2 ^ (e + (Z.pos (digits2_pos m) - 1)) <= value (Z.pos m) e
  ∧ value (Z.pos m) e < 2 ^ (e + Z.pos (digits2_pos m)).
Proof.
  pose proof (digits2_pos_bounds m) as [Hlo Hhi].
  rewrite <- !value_pow2 by lia. split; [by apply value_le | by apply value_lt].
Qed.

(** In binary64, a product rounded to nearest does not pass a canonical
    float that the exact product is below. *)
Lemma binary64_round_below s (m : positive) e s' m' e' (mt : positive) et :
  binary_round_aux 53 1024 s (Z.pos m) e loc_Exact = S754_finite s' m' e' →
  canonical_mantissa 53 1024 mt et = true →
  value (Z.pos m) e < value (Z.pos mt) et →
  value (Z.pos m') e' <= value (Z.pos mt) et.
Proof.
  intros Hround Hcan Hlt.
  apply binary_round_aux_steps in Hround as (m2 & Hm2 & Hm' & ->).
  cbn zeta in *. unfold canonical_mantissa in Hcan. apply Z.eqb_eq in Hcan.
  set (d := Z.pos (digits2_pos m)) in *.
  set (dt := Z.pos (digits2_pos mt)) in *.
  set (n0 := (fexp 53 1024 (d + e) - e)%Z) in *.
  set (e1 := (e + Z.max 0 n0)%Z) in *.
  set (n1 := (fexp 53 1024 (Zdigits2 m2 + e1) - e1)%Z) in *.
  assert (0 < 2 ^ Z.max 0 n1)%Z as Hp1 by (apply Z.pow_pos_nonneg; lia).
  assert (Z.pos m' * 2 ^ Z.max 0 n1 ≤ m2)%Z as Hle.
  { rewrite Hm', Z.mul_comm. apply Z.mul_div_le. lia. }
  rewrite <- value_shift by lia.
  eapply Qle_trans; [apply value_le, Hle|].
  destruct Hm2 as [[Hn0 ->]|[Hn0 Hm2]].
  { unfold e1. rewrite Z.max_l by lia.
    replace (e + 0)%Z with e by lia. by apply Qlt_le_weak. }
  assert (e1 = fexp 53 1024 (d + e)) as He1 by (unfold e1, n0; lia).
  assert (d + e ≤ dt + et)%Z as Hmag.
  { destruct (value_magnitude m e) as [Hlo _].
    destruct (value_magnitude mt et) as [_ Hhi]. fold d in Hlo. fold dt in Hhi.
    assert (2 ^ (e + (d - 1)) < 2 ^ (et + dt)) as Hpow by lra.
    apply Qpower_lt_compat_l_inv in Hpow; [lia | reflexivity]. }
  assert (e1 ≤ et)%Z as Hg by (unfold fexp in *; lia).
  set (Tg := (Z.pos mt * 2 ^ (et - e1))%Z).
  assert (value (Z.pos mt) et == value Tg e1) as HT.
  { unfold Tg. rewrite value_shift by lia.
    replace (e1 + (et - e1))%Z with et by lia. reflexivity. }
  assert (value Tg e1 == value (Tg * 2 ^ n0) e) as HT'.
  { rewrite value_shift by lia. unfold e1. rewrite Z.max_r by lia. reflexivity. }
  rewrite HT. apply value_le.
  assert (Z.pos m < Tg * 2 ^ n0)%Z as Hint.
  { apply (value_lt_inv _ _ e). by rewrite <- HT', <- HT. }
  assert (0 < 2 ^ n0)%Z as Hp0 by (apply Z.pow_pos_nonneg; lia).
  assert (Z.pos m `div` 2 ^ n0 < Tg)%Z; [|lia].
  apply Z.div_lt_upper_bound; lia.
Qed.

(** A valid float below 1.0 has a value below 1. *)
Lemma value_below_one (mf : positive) ef :
  valid_binary 53 1024 (S754_finite false mf ef) = true →
  Float.ltb (S754_finite false mf ef) Float.one = true →
  value (Z.pos mf) ef < 1.
Proof.
  unfold valid_binary, bounded, canonical_mantissa.
  intros Hvalid Hlt. apply andb_true_iff in Hvalid as [Hcan _].
  apply Z.eqb_eq in Hcan.
  pose proof (digits2_pos_bounds mf) as [_ Hhi].
  assert (Z.pos (digits2_pos mf) ≤ 53)%Z as Hd by (unfold fexp in Hcan; lia).
  assert (Z.pos mf < 2 ^ 53)%Z as Hm.
  { eapply Z.lt_le_trans; [exact Hhi|]. apply Z.pow_le_mono_r; lia. }
  unfold Float.ltb, SFltb, Float.one, SFcompare in Hlt.
  destruct (Z.compare_spec ef (-52)) as [He|He|He]; try discriminate.
  - subst ef. assert (Z.pos mf < 4503599627370496)%Z as Hm'.
    { assert ((mf ?= 4503599627370496)%positive = Lt) as Hc.
      { unfold Pos.compare.
        by destruct (Pos.compare_cont Eq mf 4503599627370496). }
      apply Pos.compare_lt_iff in Hc. exact Hc. }
    assert (value 4503599627370496 (-52) == 1) as <- by reflexivity.
    by apply value_lt.
  - apply Qlt_le_trans with (value (2 ^ 53) ef); [by apply value_lt|].
    rewrite value_pow2 by lia. change 1 with (2 ^ 0).
    apply Qpower_le_compat_l; [lia | discriminate].
Qed.

Lemma floor_finite_le (m1 : positive) e1 (m2 : positive) e2 :
  value (Z.pos m1) e1 <= value (Z.pos m2) e2 →
  (Float.floor_finite false m1 e1 ≤ Float.floor_finite false m2 e2)%Z.
Proof.
  intros Hle.
  pose proof (floor_finite_bounds m1 e1) as [H1 _].
  pose proof (floor_finite_bounds m2 e2) as [_ H2].
  apply Z.lt_succ_r. rewrite Zlt_Qlt. unfold Z.succ. lra.
Qed.

End Below.

(** The quotient of a positive integer by [2^30] is zero or a canonical
    positive float. *)
Lemma truediv_GiB_canonical (a : Z) (t : float) :
  0 < a → Float.truediv_GiB a = inr t →
  t = S754_zero false ∨ t = S754_nan ∨
  ∃ m e, t = S754_finite false m e ∧ canonical_mantissa 53 1024 m e = true.
Proof.
  intros Ha Ht.
  destruct (truediv_GiB_positive a t Ha Ht) as [->|[->|(m & e & ->)]]; auto.
  right. right. exists m, e. split; [done|].
  destruct a as [|p|p]; try lia.
  unfold Float.truediv_GiB, binary_normalize in Ht.
  destruct (binary_round Float.prec Float.emax false p (-30))
    as [?|?| |s' m' e'] eqn:Hround; try discriminate.
  injection Ht as -> -> ->.
  by apply (binary_round_canonical 53 1024 ltac:(lia)) in Hround.
Qed.

(** Multiplying a canonical positive float by a fraction below 1 does not
    increase its floor. *)
Lemma floor_mul_fraction (mt : positive) et (f : float) a :
  canonical_mantissa 53 1024 mt et = true →
  valid_binary 53 1024 f = true →
  Float.ltb Float.zero f = true → Float.ltb f Float.one = true →
  Float.floor (Float.mul (S754_finite false mt et) f) = inr a →
  0 ≤ a ≤ Float.floor_finite false mt et.
Proof.
  intros Hcan Hvalid H0 H1 Ha.
  destruct (fraction_finite f H0 H1) as (mf & ef & ->).
  pose proof (value_below_one mf ef Hvalid H1) as HF.
  pose proof (floor_finite_nonneg mt et) as Hc.
  unfold Float.mul, SFmul in Ha. simpl xorb in Ha.
  pose proof (binary_round_aux_sign Float.prec Float.emax false
                (Z.pos (mt * mf)) (et + ef) loc_Exact) as Hs.
  destruct (binary_round_aux _ _ _ _ _ _) as [s|s| |s mx ex] eqn:Hround;
    try discriminate Ha; subst s; simpl in Ha; injection Ha as <-.
  { lia. }
  split; [apply floor_finite_nonneg|]. apply floor_finite_le.
  apply (binary64_round_below _ _ _ _ _ _ mt et) in Hround; [done | done |].
  rewrite Pos2Z.inj_mul, value_mul.
  pose proof (value_pos mt et) as HT. pose proof (value_pos mf ef) as HF0.
  apply Qlt_le_trans with (value (Z.pos mt) et * 1)%Q; [|lra].
  apply Qmult_lt_l; done.
Qed.

(** A mantissa that is already canonical is not changed by rounding. *)
Lemma binary_round_aux_exact prec emax s (m : positive) e :
  fexp prec emax (Z.pos (digits2_pos m) + e) = e →
  binary_round_aux prec emax s (Z.pos m) e loc_Exact
  = if e <=? emax - prec then S754_finite s m e else S754_infinity s.
Proof.
  intros Hcan. unfold binary_round_aux, shr_fexp. simpl Zdigits2.
  rewrite Hcan, Z.sub_diag. simpl. rewrite Hcan, Z.sub_diag. reflexivity.
Qed.

(** Below [2^53] bytes the division by [2^30] is exact, so the floor of
    the quotient is the integer quotient. *)
Lemma truediv_GiB_exact (a : Z) (t : float) :
  0 < a < 2 ^ 53 → Float.truediv_GiB a = inr t →
  Float.floor t = inr (a `div` 2 ^ 30).
Proof.
  intros [Ha Hlt]. destruct a as [|p|p]; try lia. clear Ha.
  unfold Float.truediv_GiB, binary_normalize, binary_round.
  pose proof (digits2_pos_bounds p) as [Hlo Hhi].
  set (d := Z.pos (digits2_pos p)) in *.
  assert (d ≤ 53) as Hd.
  { destruct (Z.le_gt_cases d 53) as [|Hgt]; [done|]. exfalso.
    assert (2 ^ 53 ≤ 2 ^ (d - 1)) by (apply Z.pow_le_mono_r; lia). lia. }
  assert (fexp Float.prec Float.emax (d + -30) = d - 83) as Hfexp.
  { unfold fexp, emin, Float.prec, Float.emax. lia. }
  rewrite Hfexp. unfold shl_align.
  assert (∀ (m : positive) e,
            fexp Float.prec Float.emax (Z.pos (digits2_pos m) + e) = e →
            e ≤ -30 → (Z.pos m = Z.pos p * 2 ^ (-30 - e)) →
            match binary_round_aux Float.prec Float.emax false
                    (Z.pos m) e loc_Exact with
            | S754_infinity _ =>
                inl (OverflowError
                       "integer division result too large for a float")
            | x => inr x
            end = inr t →
            Float.floor t = inr (Z.pos p `div` 2 ^ 30)) as Hexact.
  { intros m e Hcan He Hm. rewrite binary_round_aux_exact by done.
    destruct (Z.leb_spec e (Float.emax - Float.prec)) as [_|Hbig];
      [|unfold Float.emax, Float.prec in Hbig; lia].
    intros [= <-]. simpl. f_equal.
    change (Z.pos p `div` 2 ^ 30) with (Float.floor_finite false p (-30)).
    assert (value (Z.pos m) e == value (Z.pos p) (-30))%Q as Hval.
    { rewrite Hm, value_shift by lia. by replace (e + (-30 - e)) with (-30) by lia. }
    apply Z.le_antisymm; apply floor_finite_le; rewrite Hval; apply Qle_refl. }
  destruct (d - 83 - -30) as [|q|q] eqn:Hshift.
  - apply Hexact; [|lia|].
    + fold d. rewrite Hfexp. lia.
    + replace (-30 - -30) with 0 by lia. lia.
  - lia.
  - apply Hexact; [|lia|].
    + assert (Z.pos (digits2_pos (Pos.iter xO p q)) = d + Z.pos q) as ->.
      { rewrite !digits2_pos_log2, iter_xO_pow2.
        rewrite Z.log2_mul_pow2 by lia. unfold d.
        rewrite digits2_pos_log2. lia. }
      unfold fexp, emin, Float.prec, Float.emax. lia.
    + rewrite iter_xO_pow2. do 2 f_equal. lia.
Qed.

(** X17: the planner never budgets more than the device has.  With more
    than one device, a valid float fraction in (0, 1) and a positive total
    memory, every budget in the returned map is a whole number of GiB
    between 0 and [floor(T)], the total of device 0 in GiB as the planner
    reads it: [0 <= floor(T*f*0.6) <= floor(T*f) <= floor(T)]; and for a
    device of less than [2^53] bytes [floor(T)] is [total_memory // 2^30]. *)
Theorem planner_budget_within_total args cuda tr m :
  1 < device_count cuda →
  valid_binary 53 1024 (max_memory args) = true →
  Float.ltb Float.zero (max_memory args) = true →
  Float.ltb (max_memory args) Float.one = true →
  0 < total_memory cuda →
  result (set_max_memory args cuda) tr = inr (Some m) →
  ∃ t a b c,
    Float.truediv_GiB (total_memory cuda) = inr t ∧
    Float.floor t = inr c ∧
    m !! Device 0 = Some (GiB b) ∧
    (∀ i, 1 ≤ i < device_count cuda → m !! Device i = Some (GiB a)) ∧
    0 ≤ b ∧ b ≤ a ∧ a ≤ c ∧
    (total_memory cuda < 2 ^ 53 → c = total_memory cuda `div` 2 ^ 30).
Proof.
  intros HN Hvalid H0 H1 HT Hres.
  assert (plan_result args cuda = inr (Some m)) as Hplan.
  { revert Hres. unfold result. by rewrite set_max_memory_run. }
  destruct (plan_result_floors args cuda m HN Hplan)
    as (t & a & b & Hplans & Ht & Ha & Hb).
  destruct (planned_budgets args cuda tr t a b HN Hplans Ht Ha Hb)
    as (m' & Hm' & Hdev0 & Hdev & _).
  assert (m' = m) as -> by congruence.
  destruct (floors_ordered (total_memory cuda) t (max_memory args) a b)
    as [Hba _]; [done..|].
  assert (0 ≤ b) as Hb0.
  { destruct (fraction_finite _ H0 H1) as (mf & ef & Hf). rewrite Hf in Hb.
    destruct (truediv_GiB_positive _ t HT Ht) as [->|[->|(mt & et & ->)]];
      [simpl in Hb; injection Hb as <-; lia | discriminate Hb |].
    unfold Float.mul at 2 in Hb. unfold SFmul in Hb. simpl xorb in Hb.
    pose proof (binary_round_aux_sign Float.prec Float.emax false
                  (Z.pos (mt * mf)) (et + ef) loc_Exact) as Hs.
    destruct (binary_round_aux _ _ _ _ _ _) as [s|s| |s mx ex];
      try discriminate Hb; subst s.
    { simpl in Hb. injection Hb as <-. lia. }
    unfold Float.mul, Float.c0_6, SFmul in Hb. simpl xorb in Hb.
    pose proof (binary_round_aux_sign Float.prec Float.emax false
                  (Z.pos (mx * 5404319552844595)) (ex + -53) loc_Exact) as Hs.
    destruct (binary_round_aux _ _ _ _ _ _) as [s|s| |s my ey];
      try discriminate Hb; subst s; simpl in Hb; injection Hb as <-;
      [lia | apply floor_finite_nonneg]. }
  assert (∀ i, 1 ≤ i < device_count cuda → m !! Device i = Some (GiB a))
    as Hdev' by (intros i Hi; apply Hdev; lia).
  destruct (truediv_GiB_canonical _ t HT Ht)
    as [->|[->|(mt & et & -> & Hcan)]].
  - exists (S754_zero false), a, b, 0.
    assert (a = 0) as ->.
    { destruct (fraction_finite _ H0 H1) as (mf & ef & Hf). rewrite Hf in Ha.
      simpl in Ha. by injection Ha as <-. }
    repeat split; try done.
    intros Hsmall.
    pose proof (truediv_GiB_exact _ _ (conj HT Hsmall) Ht) as Hc.
    simpl in Hc. congruence.
  - discriminate Ha.
  - exists (S754_finite false mt et), a, b, (Float.floor_finite false mt et).
    assert (0 ≤ a ≤ Float.floor_finite false mt et) as [_ Hac]
      by (by apply (floor_mul_fraction mt et (max_memory args) a)).
    repeat split; try done.
    intros Hsmall.
    pose proof (truediv_GiB_exact _ _ (conj HT Hsmall) Ht) as Hc.
    simpl in Hc. congruence.
Qed.

Lemma planner_budget_within_total_witness :
  ∃ t a b c,
    Float.truediv_GiB (total_memory cuda_2x40) = inr t ∧
    Float.floor t = inr c ∧
    budget_map 2 32 19 !! Device 0 = Some (GiB b) ∧
    (∀ i, 1 ≤ i < device_count cuda_2x40 →
          budget_map 2 32 19 !! Device i = Some (GiB a)) ∧
    0 ≤ b ∧ b ≤ a ∧ a ≤ c ∧
    (total_memory cuda_2x40 < 2 ^ 53 →
     c = total_memory cuda_2x40 `div` 2 ^ 30).
Proof.
  apply (planner_budget_within_total args_0_8 cuda_2x40 []
           (budget_map 2 32 19));
    [simpl; lia | reflexivity | reflexivity | reflexivity | simpl; lia |].
  unfold result. rewrite set_max_memory_run.
  apply (plan_result_planned args_0_8 cuda_2x40 forty 32 19); reflexivity.
Defined.
